(** * Arweave bundle upload: size-bounded batching of asset file pairs

    A shallow embedding of
    [js/packages/cli/src/helpers/upload/arweave-bundle.ts]:
    the range selector [getBundleRange], the manifest rewriting
    [getUpdatedManifest], the per-pair transformer [processBundleFilePair],
    the bundle step [processBundle] and the generator
    [makeArweaveBundleUploadGenerator].

    Conventions of the embedding.
    - Byte counts are JavaScript numbers holding non-negative integers
      ([fs.Stats.size]); they are embedded as [N].  Sums of file sizes stay
      far below 2^53, where the double arithmetic of the source is exact.
    - Asynchronous code is embedded in the order in which an awaiting caller
      observes it: every [await] is a sequencing point of the monad [M], a
      rejected promise is an [Err] result.
    - The filesystem, the JSON codec, the signer and the network client are
      collaborators outside the file; they are the fields of the class
      [Collaborators].  Calls to them are recorded in a trace.
    - The byte limit of a bundle is a parameter [limitBytes] of the range
      selector and of the driver; the source instantiates it with the
      constant [BUNDLE_SIZE_BYTE_LIMIT].
    - Calls to the logger have no effect on control flow and are left out. *)

From Stdlib Require Import List String NArith Arith Bool Lia.
Import ListNotations.
Open Scope string_scope.
Open Scope list_scope.

(** ** Data model *)

(** [type FilePair = { key; image; manifest }] *)
Record FilePair : Type := mkFilePair {
  key : string;
  image : string;
  manifest : string
}.

(** [type BundleRange = { range; size }] *)
Record BundleRange : Type := mkBundleRange {
  range : nat;
  size : N
}.

(** One tag of a transaction, [{ name, value }]. *)
Record Tag : Type := mkTag {
  name : string;
  value : string
}.

(** A [DataItem] of arbundles, as far as this file looks into it: its
    payload, its tags, and the id it owns once [sign] has run. *)
Record DataItem : Type := mkDataItem {
  data : string;
  tags : list Tag;
  signedId : option string
}.

(** Values produced by [JSON.parse].  An object is its list of own
    properties in insertion order.  An array also carries the own properties
    assigned to it by name, which [JSON.stringify] does not print. *)
#[warnings="-register-all"]
Inductive JSValue : Type :=
| JNull
| JBool (b : bool)
| JNum (literal : string)
| JStr (s : string)
| JArr (elements : list JSValue) (own : list (string * JSValue))
| JObj (props : list (string * JSValue)).

(** Everything a promise of this file can be rejected with.  [OversizePair]
    is the [Error] thrown by [getBundleRange]; its message names the key of
    the pair, the size of the pair and the limit, which are kept here as
    data. *)
Inductive Error : Type :=
| OversizePair (k : string) (filePairSize limit : N)
| StatError (path : string)
| ReadError (path : string)
| ParseError (path : string)
| TypeError
| SigningError
| BundlingError
| SubmissionError.

Inductive Res (A : Type) : Type :=
| Ok (a : A)
| Err (e : Error).
Arguments Ok {A} a.
Arguments Err {A} e.

(** Calls that reach a collaborator, in the order they are made. *)
Inductive Event : Type :=
| EvStat (path : string)
| EvReadFile (path : string)
| EvSign (item : DataItem)
| EvBundle (items : list DataItem)
| EvToTransaction
| EvSignTransaction
| EvPost.

(** ** Constants of the module *)

Definition BUNDLE_SIZE_BYTE_LIMIT : N := 200 * 1000 * 1000.

Definition BASE_TAGS : list Tag :=
  [mkTag "App-Name" "Metaplex Candy Machine"].

Definition CONTENT_TYPES_png : string := "image/png".

Definition contentTypeTags_png : Tag := mkTag "Content-Type" CONTENT_TYPES_png.
Definition contentTypeTags_json : Tag := mkTag "Content-Type" "application/json".

Definition imageTags : list Tag := BASE_TAGS ++ [contentTypeTags_png].
Definition manifestTags : list Tag := BASE_TAGS ++ [contentTypeTags_json].

(** [`https://arweave.net/${id}`] *)
Definition arweaveLink (id : string) : string :=
  ("https://arweave.net/" ++ id)%string.

(** ** Collaborators *)

(** The filesystem is read-only for this module and is taken as fixed during
    a run.  The signer and the network client may keep state of their own
    (random salts, connections), which is the abstract [World]. *)
Class Collaborators : Type := {
  World : Type;
  JWK : Type;
  ArweaveSigner : Type;
  Bundle : Type;
  Transaction : Type;
  (** [new ArweaveSigner(jwk)]; [jwk] is typed [any], and the constructor
      throws on key material it cannot take *)
  newArweaveSigner : JWK -> Res ArweaveSigner;
  (** [(await stat(file)).size], [None] when the call is rejected *)
  stat : string -> option N;
  (** [await readFile(file)], [None] when the call is rejected *)
  readFile : string -> option string;
  (** [JSON.parse], [None] for a SyntaxError *)
  JSON_parse : string -> option JSValue;
  JSON_stringify : JSValue -> string;
  (** [path.join] and the constant [EXTENSION_PNG] of [../constants] *)
  path_join : string -> string -> string;
  EXTENSION_PNG : string;
  (** [dataItem.sign(signer)]: the id the item gets, [None] when it fails *)
  sign : ArweaveSigner -> DataItem -> World -> option (string * World);
  bundleAndSignData :
    list DataItem -> ArweaveSigner -> World -> option (Bundle * World);
  (** [bundle.toTransaction(arweave, jwk)] *)
  toTransaction : Bundle -> JWK -> World -> option (Transaction * World);
  (** [arweave.transactions.sign(tx, jwk)] *)
  transactions_sign : Transaction -> JWK -> World -> option (Transaction * World);
  (** [arweave.transactions.post(tx)] *)
  transactions_post : Transaction -> World -> option World
}.

(** ** The state and error monad of asynchronous code *)

Section Monad.
Context {C : Collaborators}.

(** What a run can change: the pending list [filePairs] of the generator
    (shared with the closure [processBundle]), the state of the outside
    world, and the trace of collaborator calls. *)
Record St : Type := mkSt {
  filePairs : list FilePair;
  world : World;
  trace : list Event
}.

Definition M (A : Type) : Type := St -> Res A * St.

Definition ret {A} (a : A) : M A := fun st => (Ok a, st).

Definition throw {A} (e : Error) : M A := fun st => (Err e, st).

Definition bind {A B} (m : M A) (k : A -> M B) : M B :=
  fun st =>
    match m st with
    | (Ok a, st') => k a st'
    | (Err e, st') => (Err e, st')
    end.

Definition emit (ev : Event) : M unit :=
  fun st => (Ok tt, mkSt (filePairs st) (world st) (trace st ++ [ev])).

(** A call that reads the outside world without changing it. *)
Definition liftOption {A} (o : option A) (e : Error) : M A :=
  match o with
  | Some a => ret a
  | None => throw e
  end.

(** A call that may change the outside world. *)
Definition liftWorld {A} (f : World -> option (A * World)) (e : Error) : M A :=
  fun st =>
    match f (world st) with
    | Some (a, w) => (Ok a, mkSt (filePairs st) w (trace st))
    | None => (Err e, st)
    end.
End Monad.

Notation "x <- m ;; k" := (bind m (fun x => k))
  (at level 61, m at next level, right associativity).
Notation "m ;;; k" := (bind m (fun _ => k))
  (at level 61, right associativity).

(** ** Size-bounded range selector *)

Section RangeSelector.
Context {C : Collaborators}.

(** The byte limit per bundle.  The source fixes it to
    [BUNDLE_SIZE_BYTE_LIMIT]. *)
Variable limitBytes : N.

Definition statSize (file : string) : M N :=
  emit (EvStat file) ;;;
  liftOption (stat file) (StatError file).

(** [[image, manifest].reduce(async (accP, file) => ..., Promise.resolve(0))] *)
Definition filePairSizeOf (p : FilePair) : M N :=
  fold_left
    (fun (accP : M N) (file : string) =>
       acc <- accP ;;
       sz <- statSize file ;;
       ret (acc + sz)%N)
    [image p; manifest p]
    (ret 0%N).

(** The [for ... of] loop of [getBundleRange], with its two locals. *)
Fixpoint getBundleRange_loop (pairs : list FilePair) (total : N) (rng : nat)
  : M BundleRange :=
  match pairs with
  | [] => ret (mkBundleRange rng total)
  | p :: rest =>
      filePairSize <- filePairSizeOf p ;;
      if (limitBytes <=? total + filePairSize)%N then
        if Nat.eqb rng 0
        then throw (OversizePair (key p) filePairSize limitBytes)
        else ret (mkBundleRange rng total)
      else getBundleRange_loop rest (total + filePairSize)%N (rng + 1)
  end.

Definition getBundleRange (pairs : list FilePair) : M BundleRange :=
  getBundleRange_loop pairs 0%N 0.
End RangeSelector.

(** ** Property access on parsed values *)

Fixpoint lookupProp (k : string) (ps : list (string * JSValue)) : option JSValue :=
  match ps with
  | [] => None
  | (k', v) :: rest => if String.eqb k k' then Some v else lookupProp k rest
  end.

(** Assignment to an own property: an existing property keeps its place, a
    new one goes last. *)
Fixpoint assignProp (k : string) (v : JSValue) (ps : list (string * JSValue))
  : list (string * JSValue) :=
  match ps with
  | [] => [(k, v)]
  | (k', v') :: rest =>
      if String.eqb k k' then (k, v) :: rest else (k', v') :: assignProp k v rest
  end.

(** [o.k] for the names this module reads ([properties], [image], [files],
    [type], [uri]): none of them is an index, [length] or a prototype
    member, so only own properties answer; [None] is [undefined]. *)
Definition getProp (o : JSValue) (k : string) : option JSValue :=
  match o with
  | JObj ps => lookupProp k ps
  | JArr _ own => lookupProp k own
  | _ => None
  end.

(** [o.k = v] in strict mode (the file is an ES module): assigning to a
    property of [null] or of a primitive throws a TypeError. *)
Definition setProp (o : JSValue) (k : string) (v : JSValue) : Res JSValue :=
  match o with
  | JObj ps => Ok (JObj (assignProp k v ps))
  | JArr es own => Ok (JArr es (assignProp k v own))
  | _ => Err TypeError
  end.

(** [o.k1.k2 = v].  [o.k1] is a reference to an object that [o] keeps
    holding, so the assignment is seen through [o]; reading [k2] off
    [undefined] throws a TypeError. *)
Definition setNestedProp (o : JSValue) (k1 k2 : string) (v : JSValue)
  : Res JSValue :=
  match getProp o k1 with
  | None => Err TypeError
  | Some inner =>
      match setProp inner k2 v with
      | Ok inner' => setProp o k1 inner'
      | Err e => Err e
      end
  end.

(** The literal [[{ type: CONTENT_TYPES['png'], uri: imageLink }]]. *)
Definition filesEntry (imageLink : string) : JSValue :=
  JObj [("type", JStr CONTENT_TYPES_png); ("uri", JStr imageLink)].

Definition filesListing (imageLink : string) : JSValue :=
  JArr [filesEntry imageLink] [].

(** The in-memory part of [getUpdatedManifest]: the two assignments. *)
Definition updateManifest (manifest : JSValue) (imageLink : string)
  : Res JSValue :=
  match setProp manifest "image" (JStr imageLink) with
  | Ok manifest' =>
      setNestedProp manifest' "properties" "files" (filesListing imageLink)
  | Err e => Err e
  end.

(** ** Pair transformer, bundle assembler and driver *)

(** [type ProcessedBundleFilePairs] *)
Record ProcessedBundleFilePairs : Type := mkProcessed {
  acc_cacheKeys : list string;
  acc_dataItems : list DataItem;
  acc_manifestLinks : list string;
  acc_updatedManifests : list JSValue
}.

(** [type UploadGeneratorResult = Omit<ProcessedBundleFilePairs, 'dataItems'>] *)
Record UploadGeneratorResult : Type := mkResult {
  cacheKeys : list string;
  manifestLinks : list string;
  updatedManifests : list JSValue
}.

Section Driver.
Context {C : Collaborators}.
Variable limitBytes : N.

Definition liftRes {A} (r : Res A) : M A := fun st => (r, st).

(** [createData(data, signer, { tags })]: an item that is not signed yet. *)
Definition createData (payload : string) (signer : ArweaveSigner)
    (tgs : list Tag) : DataItem :=
  mkDataItem payload tgs None.

(** [await item.sign(signer)]: the item object now carries its id. *)
Definition signDataItem (signer : ArweaveSigner) (item : DataItem)
  : M DataItem :=
  emit (EvSign item) ;;;
  id <- liftWorld (sign signer item) SigningError ;;
  ret (mkDataItem (data item) (tags item) (Some id)).

(** The getter [item.id].  Only items returned by [signDataItem] are asked
    for it; an item without a signature has no id of its own, which is the
    empty string here. *)
Definition idOf (item : DataItem) : string :=
  match signedId item with
  | Some id => id
  | None => ""
  end.

Definition getImageDataItem (signer : ArweaveSigner) (img : string)
  : M DataItem :=
  emit (EvReadFile img) ;;;
  content <- liftOption (readFile img) (ReadError img) ;;
  ret (createData content signer imageTags).

Definition getManifestDataItem (signer : ArweaveSigner) (mf : JSValue)
  : DataItem :=
  createData (JSON_stringify mf) signer manifestTags.

Definition getUpdatedManifest (manifestPath imageLink : string)
  : M JSValue :=
  emit (EvReadFile manifestPath) ;;;
  text <- liftOption (readFile manifestPath) (ReadError manifestPath) ;;
  mf <- liftOption (JSON_parse text) (ParseError manifestPath) ;;
  liftRes (updateManifest mf imageLink).

(** The callback of [bundleFilePairs.reduce]. *)
Definition processBundleFilePair (signer : ArweaveSigner)
    (accP : M ProcessedBundleFilePairs) (filePair : FilePair)
  : M ProcessedBundleFilePairs :=
  acc <- accP ;;
  imageDataItem <- getImageDataItem signer (image filePair) ;;
  imageDataItem <- signDataItem signer imageDataItem ;;
  let imageLink := arweaveLink (idOf imageDataItem) in
  mf <- getUpdatedManifest (manifest filePair) imageLink ;;
  let manifestDataItem := getManifestDataItem signer mf in
  manifestDataItem <- signDataItem signer manifestDataItem ;;
  let manifestLink := arweaveLink (idOf manifestDataItem) in
  ret (mkProcessed
         (acc_cacheKeys acc ++ [key filePair])
         (acc_dataItems acc ++ [imageDataItem; manifestDataItem])
         (acc_manifestLinks acc ++ [manifestLink])
         (acc_updatedManifests acc ++ [mf])).

Definition emptyProcessed : ProcessedBundleFilePairs :=
  mkProcessed [] [] [] [].

(** [filePairs.splice(0, n)] on the pending list of the generator. *)
Definition splice0 (n : nat) : M (list FilePair) :=
  fun st =>
    (Ok (firstn n (filePairs st)),
     mkSt (skipn n (filePairs st)) (world st) (trace st)).

(** The continuation [processBundle] given to [getBundleRange(...).then]. *)
Definition processBundle (signer : ArweaveSigner) (jwk : JWK)
    (r : BundleRange) : M UploadGeneratorResult :=
  bundleFilePairs <- splice0 (range r) ;;
  acc <- fold_left (processBundleFilePair signer) bundleFilePairs
           (ret emptyProcessed) ;;
  emit (EvBundle (acc_dataItems acc)) ;;;
  bundle <- liftWorld (bundleAndSignData (acc_dataItems acc) signer)
              BundlingError ;;
  emit EvToTransaction ;;;
  tx <- liftWorld (toTransaction bundle jwk) BundlingError ;;
  emit EvSignTransaction ;;;
  tx <- liftWorld (transactions_sign tx jwk) SigningError ;;
  emit EvPost ;;;
  liftWorld (fun w => option_map (fun w' => (tt, w')) (transactions_post tx w))
    SubmissionError ;;;
  ret (mkResult (acc_cacheKeys acc) (acc_manifestLinks acc)
         (acc_updatedManifests acc)).

(** The promise built in the loop of the generator,
    [getBundleRange(filePairs).then(processBundle)]: it reads and splices
    the pending list at the time it runs. *)
Definition bundlePromise (signer : ArweaveSigner) (jwk : JWK)
  : M UploadGeneratorResult :=
  fun st =>
    bind (getBundleRange limitBytes (filePairs st)) (processBundle signer jwk) st.

(** Where the generator function is suspended. *)
Inductive Generator : Type :=
| SuspendedStart (dirname : string) (assets : list string) (jwk : JWK)
| SuspendedYield (signer : ArweaveSigner) (jwk : JWK)
| Completed.

(** What [generator.next()] does: it hands out a promise, reports [done],
    or throws what the body of the generator function threw. *)
Inductive IteratorResult : Type :=
| Yielded (promise : M UploadGeneratorResult)
| Done
| Thrown (e : Error).

Definition makeArweaveBundleUploadGenerator (dirname : string)
    (assets : list string) (jwk : JWK) : Generator :=
  SuspendedStart dirname assets jwk.

Definition toFilePair (dirname asset : string) : FilePair :=
  mkFilePair asset
    (path_join dirname (asset ++ EXTENSION_PNG)%string)
    (path_join dirname (asset ++ ".json")%string).

Definition emptyResult : UploadGeneratorResult := mkResult [] [] [].

(** One [generator.next()]: the body of the generator function up to its
    next [yield].  The signer is built before the first [yield]; when its
    constructor throws, the first [next()] throws and the generator is
    finished. *)
Definition next (g : Generator) (st : St) : IteratorResult * Generator * St :=
  match g with
  | SuspendedStart dirname assets jwk =>
      match newArweaveSigner jwk with
      | Err e => (Thrown e, Completed, st)
      | Ok signer =>
          let pairs := map (toFilePair dirname) assets in
          (Yielded (ret emptyResult),
           SuspendedYield signer jwk,
           mkSt pairs (world st) (trace st))
      end
  | SuspendedYield signer jwk =>
      match filePairs st with
      | [] => (Done, Completed, st)
      | _ :: _ =>
          (Yielded (bundlePromise signer jwk), SuspendedYield signer jwk, st)
      end
  | Completed => (Done, Completed, st)
  end.

(** How a consumer that awaits every promise before it pulls the next one
    can leave the generator. *)
Inductive Outcome : Type :=
| Exhausted
| Failed (e : Error)
| StillPending.

(** [for (const p of generator) results.push(await p)], at most [fuel]
    pulls; a [next()] that throws or a rejected promise ends the consumer. *)
Fixpoint drain (fuel : nat) (g : Generator) (st : St)
  : list UploadGeneratorResult * Outcome * St :=
  match fuel with
  | O => ([], StillPending, st)
  | S fuel' =>
      match next g st with
      | (Done, _, st1) => ([], Exhausted, st1)
      | (Thrown e, _, st1) => ([], Failed e, st1)
      | (Yielded promise, g1, st1) =>
          match promise st1 with
          | (Err e, st2) => ([], Failed e, st2)
          | (Ok r, st2) =>
              let '(rs, out, st3) := drain fuel' g1 st2 in
              (r :: rs, out, st3)
          end
      end
  end.
End Driver.

(** ** Vocabulary of the statements *)

Section Vocabulary.
Context {C : Collaborators}.

(** The combined size of a pair, image first, as the inner [reduce] adds it
    up; [None] when one of the two files cannot be stat'ed. *)
Definition pairBytes (p : FilePair) : option N :=
  match stat (image p), stat (manifest p) with
  | Some a, Some b => Some (a + b)%N
  | _, _ => None
  end.

(** [sizes] lists the combined sizes of [pairs], in order. *)
Definition SizesOf (pairs : list FilePair) (sizes : list N) : Prop :=
  Forall2 (fun p s => pairBytes p = Some s) pairs sizes.
End Vocabulary.

Definition sumN (l : list N) : N := fold_right N.add 0%N l.

(** Sum of the first [k] sizes. *)
Definition prefixSum (sizes : list N) (k : nat) : N := sumN (firstn k sizes).

(** [count] is the greatest prefix length whose sum stays below [limit]. *)
Definition MaximalPrefix (limit : N) (sizes : list N) (count : nat) : Prop :=
  count <= List.length sizes /\
  (prefixSum sizes count < limit)%N /\
  forall k, count < k <= List.length sizes -> (limit <= prefixSum sizes k)%N.

(** The loop of [getBundleRange] read on the keys and sizes of the pairs. *)
Fixpoint selectRange (limit : N) (keys : list string) (sizes : list N)
    (total : N) (rng : nat) : Res BundleRange :=
  match keys, sizes with
  | k :: keys', s :: sizes' =>
      if (limit <=? total + s)%N then
        if Nat.eqb rng 0
        then Err (OversizePair k s limit)
        else Ok (mkBundleRange rng total)
      else selectRange limit keys' sizes' (total + s)%N (rng + 1)
  | _, _ => Ok (mkBundleRange rng total)
  end.

(** Two outcomes of the range selector that agree on everything but the key
    named in an oversize error. *)
Definition sameRange (a b : Res BundleRange) : Prop :=
  match a, b with
  | Ok r1, Ok r2 => r1 = r2
  | Err (OversizePair _ s1 l1), Err (OversizePair _ s2 l2) => s1 = s2 /\ l1 = l2
  | _, _ => False
  end.

(** The shape the type [Manifest] promises: an object whose [properties]
    is an object. *)
Definition wellFormedManifest (doc : JSValue) : bool :=
  match doc with
  | JObj ps =>
      match lookupProp "properties" ps with
      | Some (JObj _) => true
      | _ => false
      end
  | _ => false
  end.

(** What the transformation of one pair leaves behind: the two signed
    records and the updated manifest. *)
Record PairOutcome : Type := mkOutcome {
  po_pair : FilePair;
  po_imageItem : DataItem;
  po_manifestItem : DataItem;
  po_manifest : JSValue
}.

(** The records of a bundle, image then manifest, pair after pair. *)
Definition recordsOf (outs : list PairOutcome) : list DataItem :=
  flat_map (fun o => [po_imageItem o; po_manifestItem o]) outs.

Definition keysOf (outs : list PairOutcome) : list string :=
  map (fun o => key (po_pair o)) outs.

Definition linksOf (outs : list PairOutcome) : list string :=
  map (fun o => arweaveLink (idOf (po_manifestItem o))) outs.

Definition manifestsOf (outs : list PairOutcome) : list JSValue :=
  map po_manifest outs.

Section TransformerVocabulary.
Context {C : Collaborators}.
Variable signer : ArweaveSigner.

(** [o] is what transforming [po_pair o] yields when the world is [w] at the
    start and [w'] at the end: the image is read and signed first, in [w];
    its id makes the link written into the parsed manifest; the printed
    manifest is signed in the world the image signature left. *)
Definition Transformed (w : World) (o : PairOutcome) (w' : World) : Prop :=
  exists content imageId w1 text doc manifestId,
    readFile (image (po_pair o)) = Some content /\
    sign signer (createData content signer imageTags) w = Some (imageId, w1) /\
    po_imageItem o = mkDataItem content imageTags (Some imageId) /\
    readFile (manifest (po_pair o)) = Some text /\
    JSON_parse text = Some doc /\
    updateManifest doc (arweaveLink imageId) = Ok (po_manifest o) /\
    sign signer (getManifestDataItem signer (po_manifest o)) w1 =
      Some (manifestId, w') /\
    po_manifestItem o =
      mkDataItem (JSON_stringify (po_manifest o)) manifestTags (Some manifestId).

(** Pairs transformed one after the other, each in the world the previous
    one left. *)
Inductive TransformedAll : World -> list PairOutcome -> World -> Prop :=
| TransformedNil w : TransformedAll w [] w
| TransformedCons w o w1 outs w' :
    Transformed w o w1 -> TransformedAll w1 outs w' ->
    TransformedAll w (o :: outs) w'.

(** The collaborator calls of one pair, in the order they are made. *)
Definition callsOf (o : PairOutcome) : list Event :=
  [EvReadFile (image (po_pair o));
   EvSign (createData (data (po_imageItem o)) signer imageTags);
   EvReadFile (manifest (po_pair o));
   EvSign (getManifestDataItem signer (po_manifest o))].


(** The accumulator of the [reduce] after [outs] more pairs. *)
Definition pushAll (acc : ProcessedBundleFilePairs) (outs : list PairOutcome)
  : ProcessedBundleFilePairs :=
  mkProcessed (acc_cacheKeys acc ++ keysOf outs)
              (acc_dataItems acc ++ recordsOf outs)
              (acc_manifestLinks acc ++ linksOf outs)
              (acc_updatedManifests acc ++ manifestsOf outs).

(** [o] is the outcome of a transformation of its pair in some world. *)
Definition Valid (o : PairOutcome) : Prop :=
  exists w w', Transformed w o w'.
End TransformerVocabulary.

(** The three sequences of a result describe, index by index, the pairs
    behind [outs]: key, link of the signed manifest record, updated
    manifest. *)
Definition Aligned (outs : list PairOutcome) (r : UploadGeneratorResult)
  : Prop :=
  cacheKeys r = keysOf outs /\
  manifestLinks r = linksOf outs /\
  updatedManifests r = manifestsOf outs.

Definition sameLengths (r : UploadGeneratorResult) : Prop :=
  List.length (cacheKeys r) = List.length (manifestLinks r) /\
  List.length (manifestLinks r) = List.length (updatedManifests r).

(** A computation that leaves the pending list alone, whatever it answers. *)
Definition KeepsPending {C : Collaborators} {A} (m : M A) : Prop :=
  forall st, filePairs (snd (m st)) = filePairs st.

(** ** Vocabulary of the call traces *)

(** The state [st] after the calls [evs], nothing else changed. *)
Definition logged {C : Collaborators} (st : St) (evs : list Event) : St :=
  mkSt (filePairs st) (world st) (trace st ++ evs).

(** The stat calls that sizing [pairs] takes: image, then manifest. *)
Definition statCalls (pairs : list FilePair) : list Event :=
  flat_map (fun p => [EvStat (image p); EvStat (manifest p)]) pairs.

Definition isPost (ev : Event) : bool :=
  match ev with
  | EvPost => true
  | _ => false
  end.

(** How many transactions a trace posts. *)
Definition postsIn (evs : list Event) : nat :=
  List.length (filter isPost evs).

(** The calls a pair transformation can make. *)
Definition isTransformCall (ev : Event) : Prop :=
  match ev with
  | EvReadFile _ | EvSign _ => True
  | _ => False
  end.

(** Whatever [m] answers, the calls it adds to the trace all satisfy [P]. *)
Definition Emits {C : Collaborators} {A} (P : Event -> Prop) (m : M A) : Prop :=
  forall st, exists evs,
    trace (snd (m st)) = trace st ++ evs /\ Forall P evs.

(** Values a property can be assigned on: objects and arrays. *)
Definition acceptsProps (v : JSValue) : bool :=
  match v with
  | JObj _ | JArr _ _ => true
  | _ => false
  end.

(** Every error [m] can be rejected with satisfies [P]. *)
Definition Raises {C : Collaborators} {A} (P : Error -> Prop) (m : M A) : Prop :=
  forall st e st', m st = (Err e, st') -> P e.

(** The errors of transforming one of [pairs]: a file of the pair cannot be
    read, its manifest does not parse or cannot take the assignments, or a
    signature fails. *)
Definition isTransformError {C : Collaborators} (pairs : list FilePair)
    (e : Error) : Prop :=
  e = TypeError \/ e = SigningError \/
  exists p, In p pairs /\
            (e = ReadError (image p) \/ e = ReadError (manifest p) \/
             e = ParseError (manifest p)).

(** ** A small world to run the code in *)

Module Demo.

Definition sizeTable : list (string * N) :=
  [("/assets/0.png", 300%N); ("/assets/0.json", 100%N);
   ("/assets/1.png", 300%N); ("/assets/1.json", 100%N);
   ("/assets/2.png", 300%N); ("/assets/2.json", 100%N);
   ("/assets/3.png", 300%N); ("/assets/3.json", 8%N);
   ("/assets/big.png", 1100%N); ("/assets/big.json", 100%N);
   ("/assets/huge.png", 250000000%N); ("/assets/huge.json", 512%N)].

Fixpoint assoc {A} (k : string) (l : list (string * A)) : option A :=
  match l with
  | [] => None
  | (k', a) :: rest => if String.eqb k k' then Some a else assoc k rest
  end.

Definition doc0 : JSValue :=
  JObj [("name", JStr "Asset #0");
        ("image", JStr "0.png");
        ("properties",
         JObj [("files", JArr [JObj [("uri", JStr "0.png");
                                     ("type", JStr "image/png")];
                               JObj [("uri", JStr "0.mp4");
                                     ("type", JStr "video/mp4")]] []);
               ("category", JStr "image")])].

Definition doc1 : JSValue :=
  JObj [("name", JStr "Asset #1");
        ("properties", JObj [("category", JStr "image")])].

(** A document that parses but has no [properties]. *)
Definition docBare : JSValue := JObj [("name", JStr "Asset #2")].

Definition contentTable : list (string * string) :=
  [("/assets/0.png", "png-bytes-0"); ("/assets/0.json", "json-text-0");
   ("/assets/1.png", "png-bytes-1"); ("/assets/1.json", "json-text-1");
   ("/assets/2.png", "png-bytes-2"); ("/assets/2.json", "json-text-2");
   ("/assets/3.png", "png-bytes-3"); ("/assets/3.json", "not json")].

Definition parseTable : list (string * JSValue) :=
  [("json-text-0", doc0); ("json-text-1", doc1); ("json-text-2", docBare)].

(** A stand-in printer: it tells the documents of this module apart by
    their image link. *)
Definition stringify (v : JSValue) : string :=
  match getProp v "image" with
  | Some (JStr s) => ("{image:" ++ s ++ "}")%string
  | _ => "{}"
  end.

(** The signer numbers the items it signs; the counter is the world. *)
Definition idOfNat (n : nat) : string :=
  match n with
  | 0 => "tx0" | 1 => "tx1" | 2 => "tx2" | 3 => "tx3" | 4 => "tx4"
  | 5 => "tx5" | 6 => "tx6" | 7 => "tx7" | _ => "txN"
  end.

#[export] Instance collaborators : Collaborators := {|
  World := nat;
  JWK := bool;
  ArweaveSigner := unit;
  Bundle := list DataItem;
  Transaction := list DataItem;
  newArweaveSigner := fun jwk => if jwk then Ok tt else Err TypeError;
  stat := fun f => assoc f sizeTable;
  readFile := fun f => assoc f contentTable;
  JSON_parse := fun s => assoc s parseTable;
  JSON_stringify := stringify;
  path_join := fun d f => (d ++ "/" ++ f)%string;
  EXTENSION_PNG := ".png";
  sign := fun _ _ w => Some (idOfNat w, S w);
  bundleAndSignData := fun items _ w => Some (items, w);
  toTransaction := fun b _ w => Some (b, w);
  transactions_sign := fun tx _ w => Some (tx, w);
  transactions_post := fun _ w => Some w
|}.

(** Key material the signer takes, its signer, and key material on which
    the constructor throws. *)
Definition theJwk : JWK := true.
Definition theSigner : ArweaveSigner := tt.
Definition badJwk : JWK := false.

Definition pair (k : string) : FilePair := toFilePair "/assets" k.

(** A state with the given pending list, a fresh signer and no call made. *)
Definition stWith (pairs : list FilePair) : St := mkSt pairs 0 [].

Definition st0 : St := stWith [].

Definition pairs3 : list FilePair := [pair "0"; pair "1"; pair "2"].

(** Pair 3 has a manifest that does not parse. *)
Definition pairsBad : list FilePair := [pair "0"; pair "3"; pair "1"].

End Demo.

(** * Properties *)

(** ** Running the monad *)

Section MonadFacts.
Context {C : Collaborators}.

Lemma bind_ok {A B} (m : M A) (k : A -> M B) st a st' :
  m st = (Ok a, st') -> bind m k st = k a st'.
Proof. intros H. unfold bind. now rewrite H. Qed.

Lemma bind_err {A B} (m : M A) (k : A -> M B) st e st' :
  m st = (Err e, st') -> bind m k st = (Err e, st').
Proof. intros H. unfold bind. now rewrite H. Qed.

(** A bind that succeeds went through a successful first half. *)
Lemma bind_inv_ok {A B} (m : M A) (k : A -> M B) st b st2 :
  bind m k st = (Ok b, st2) ->
  exists a st1, m st = (Ok a, st1) /\ k a st1 = (Ok b, st2).
Proof.
  unfold bind. destruct (m st) as [[a|e] st1] eqn:E; intros H.
  - now exists a, st1.
  - discriminate.
Qed.
End MonadFacts.

(** ** The range selector *)

Section RangeSelectorFacts.
Context {C : Collaborators}.
Variable limitBytes : N.

Lemma filePairSizeOf_run p s st :
  pairBytes p = Some s ->
  filePairSizeOf p st =
    (Ok s, mkSt (filePairs st) (world st)
             (trace st ++ [EvStat (image p); EvStat (manifest p)])).
Proof.
  unfold pairBytes, filePairSizeOf, statSize. simpl.
  destruct (stat (image p)) as [a|] eqn:Ea; [|discriminate].
  destruct (stat (manifest p)) as [b|] eqn:Eb; [|discriminate].
  intros H; injection H as <-.
  unfold bind, emit, liftOption, ret. simpl.
  rewrite <- app_assoc. reflexivity.
Qed.

(** On pairs whose files can be stat'ed, the loop computes [selectRange]. *)
Lemma getBundleRange_loop_selectRange pairs sizes :
  SizesOf pairs sizes ->
  forall total rng st,
    fst (getBundleRange_loop limitBytes pairs total rng st) =
    selectRange limitBytes (map key pairs) sizes total rng.
Proof.
  induction 1 as [|p s pairs sizes Hp _ IH]; intros total rng st.
  - reflexivity.
  - simpl. erewrite bind_ok by (apply filePairSizeOf_run; exact Hp).
    destruct (limitBytes <=? total + s)%N.
    + destruct (Nat.eqb rng 0); reflexivity.
    + apply IH.
Qed.
Lemma prefixSum_cons s sizes k :
  prefixSum (s :: sizes) (S k) = (s + prefixSum sizes k)%N.
Proof. reflexivity. Qed.

(** What [selectRange] answers from the middle of a scan: an oversize error
    only before anything was selected; otherwise [c] further pairs, all of
    whose running sums stay below the limit, the next one reaching it. *)
Lemma selectRange_spec keys :
  forall sizes total rng,
    List.length keys = List.length sizes ->
    match selectRange limitBytes keys sizes total rng with
    | Err e =>
        rng = 0 /\
        exists k s, hd_error keys = Some k /\ hd_error sizes = Some s /\
                    (limitBytes <= total + s)%N /\
                    e = OversizePair k s limitBytes
    | Ok r =>
        exists c,
          r = mkBundleRange (rng + c) (total + prefixSum sizes c)%N /\
          c <= List.length sizes /\
          (forall k, c < k <= List.length sizes ->
                     (limitBytes <= total + prefixSum sizes k)%N) /\
          (0 < c -> (total + prefixSum sizes c < limitBytes)%N) /\
          (c = 0 -> sizes <> [] -> rng <> 0)
    end.
Proof.
  induction keys as [|k keys IH]; intros [|s sizes] total rng Hlen;
    try discriminate.
  - simpl. exists 0. rewrite Nat.add_0_r.
    unfold prefixSum; simpl. rewrite N.add_0_r.
    repeat split; try lia; try congruence; simpl; intros; lia.
  - simpl in Hlen. injection Hlen as Hlen. simpl.
    destruct (N.leb_spec limitBytes (total + s)) as [Hge|Hlt].
    + destruct (Nat.eqb_spec rng 0) as [->|Hrng].
      * split; [reflexivity|]. exists k, s. now repeat split.
      * exists 0. rewrite Nat.add_0_r.
        unfold prefixSum at 1; simpl. rewrite N.add_0_r.
        repeat split; try lia; try congruence.
        intros [|j] Hj; [lia|]. rewrite prefixSum_cons. lia.
    + specialize (IH sizes (total + s)%N (rng + 1) Hlen).
      destruct (selectRange limitBytes keys sizes (total + s) (rng + 1))
        as [r|e].
      * destruct IH as (c & -> & Hc & Hmax & Hlt' & _).
        exists (S c). rewrite prefixSum_cons.
        repeat split.
        -- f_equal; [lia|]. now rewrite N.add_assoc.
        -- simpl; lia.
        -- intros [|j] Hj; [lia|]. rewrite prefixSum_cons.
           rewrite N.add_assoc. apply Hmax. simpl in Hj. lia.
        -- intros _. destruct c as [|c].
           ++ unfold prefixSum; simpl. lia.
           ++ rewrite N.add_assoc. apply Hlt'. lia.
        -- discriminate.
      * destruct IH as [Hrng _]. lia.
Qed.

Lemma SizesOf_length pairs sizes :
  SizesOf pairs sizes -> List.length (map key pairs) = List.length sizes.
Proof. intros H. rewrite length_map. exact (Forall2_length H). Qed.

(** C1.  For a byte limit [limitBytes] and pending pairs whose combined
    sizes are [sizes] (image size plus manifest size), [getBundleRange]
    - fails with the oversize error naming the key (and size) of the first
      pair when that pair alone reaches the limit;
    - otherwise returns the greatest prefix length [count] whose sum of pair
      sizes is strictly below the limit, with that sum as [size];
    - and never returns [range = 0] on a non-empty list.
    The limit is positive or the list is non-empty: the source's limit is
    the positive constant [BUNDLE_SIZE_BYTE_LIMIT], and the driver only asks
    for a range over a non-empty list. *)
Theorem getBundleRange_maximal_prefix pairs sizes st :
  SizesOf pairs sizes ->
  (0 < limitBytes)%N \/ pairs <> [] ->
  (forall p0 s0,
      hd_error pairs = Some p0 -> hd_error sizes = Some s0 ->
      (limitBytes <= s0)%N ->
      fst (getBundleRange limitBytes pairs st) =
        Err (OversizePair (key p0) s0 limitBytes)) /\
  ((forall s0, hd_error sizes = Some s0 -> (s0 < limitBytes)%N) ->
   exists count,
     fst (getBundleRange limitBytes pairs st) =
       Ok (mkBundleRange count (prefixSum sizes count)) /\
     MaximalPrefix limitBytes sizes count /\
     (pairs <> [] -> 1 <= count)) /\
  (forall r,
      fst (getBundleRange limitBytes pairs st) = Ok r ->
      pairs <> [] -> range r <> 0).
Proof.
  intros Hsz Hpos. unfold getBundleRange.
  rewrite (getBundleRange_loop_selectRange _ _ Hsz).
  pose proof (selectRange_spec (map key pairs) sizes 0%N 0
                (SizesOf_length _ _ Hsz)) as Hspec.
  assert (Hne : pairs <> [] -> sizes <> []).
  { intros Hp ->. inversion Hsz; subst. now apply Hp. }
  split; [|split].
  - intros p0 s0 Hp0 Hs0 Hge.
    destruct pairs as [|p pairs']; [discriminate|].
    destruct sizes as [|s sizes']; [discriminate|].
    simpl in Hp0, Hs0. injection Hp0 as ->. injection Hs0 as ->.
    simpl. destruct (N.leb_spec limitBytes s0) as [_|Hlt]; [reflexivity|lia].
  - intros Hfirst.
    destruct (selectRange limitBytes (map key pairs) sizes 0 0) as [r|e].
    + destruct Hspec as (c & -> & Hc & Hmax & Hlt & Hzero).
      exists c. simpl. split; [reflexivity|].
      assert (Hc1 : pairs <> [] -> 1 <= c).
      { intros Hp. destruct c; [|lia]. exfalso.
        now apply (Hzero eq_refl (Hne Hp)). }
      split; [|exact Hc1].
      split; [exact Hc|]. split; [|exact Hmax].
      destruct c as [|c].
      * unfold prefixSum; simpl.
        destruct Hpos as [Hpos|Hp]; [exact Hpos|].
        specialize (Hc1 Hp). lia.
      * apply Hlt. lia.
    + destruct Hspec as (_ & k & s & _ & Hs & Hge & _).
      specialize (Hfirst s Hs). lia.
  - intros r Hr Hp.
    rewrite Hr in Hspec. destruct Hspec as (c & -> & _ & _ & _ & Hzero).
    simpl. intros Hc. apply (Hzero Hc (Hne Hp)). reflexivity.
Qed.

(** C2, as the code has it.  When the first pending pair alone reaches the
    byte limit, [getBundleRange] is rejected with the oversize error naming
    that pair; it returns no [BundleRange] at all, and leaves the pending
    list and the outside world as they were. *)
Theorem getBundleRange_oversize_throws p0 rest s0 st :
  pairBytes p0 = Some s0 ->
  (limitBytes <= s0)%N ->
  fst (getBundleRange limitBytes (p0 :: rest) st) =
    Err (OversizePair (key p0) s0 limitBytes) /\
  (forall r, fst (getBundleRange limitBytes (p0 :: rest) st) <> Ok r) /\
  filePairs (snd (getBundleRange limitBytes (p0 :: rest) st)) = filePairs st /\
  world (snd (getBundleRange limitBytes (p0 :: rest) st)) = world st.
Proof.
  intros Hp Hge. unfold getBundleRange. simpl.
  erewrite bind_ok by (apply filePairSizeOf_run; exact Hp).
  destruct (N.leb_spec limitBytes s0) as [_|Hlt]; [|lia].
  simpl. repeat split. discriminate.
Qed.

(** C10.  For a fixed limit the answer of [getBundleRange] is a function of
    the combined pair sizes alone: on two pending lists of the same length
    with pointwise equal combined sizes it returns the same [BundleRange],
    or fails on both with an oversize error of the same size. *)
Theorem getBundleRange_depends_on_sizes_only pairs1 pairs2 st1 st2 :
  Forall2 (fun p q => exists s, pairBytes p = Some s /\ pairBytes q = Some s)
          pairs1 pairs2 ->
  sameRange (fst (getBundleRange limitBytes pairs1 st1))
            (fst (getBundleRange limitBytes pairs2 st2)) /\
  (forall r, fst (getBundleRange limitBytes pairs1 st1) = Ok r <->
             fst (getBundleRange limitBytes pairs2 st2) = Ok r).
Proof.
  intros H.
  assert (Hsz : exists sizes, SizesOf pairs1 sizes /\ SizesOf pairs2 sizes).
  { induction H as [|p q l1 l2 (s & Hp & Hq) _ (sizes & H1 & H2)].
    - exists []. split; constructor.
    - exists (s :: sizes). split; constructor; assumption. }
  destruct Hsz as (sizes & H1 & H2).
  unfold getBundleRange.
  rewrite (getBundleRange_loop_selectRange _ _ H1),
          (getBundleRange_loop_selectRange _ _ H2).
  assert (Hlen : List.length (map key pairs1) = List.length (map key pairs2)).
  { rewrite !length_map. now rewrite (Forall2_length H). }
  clear H H1 H2. generalize 0%N as total, 0 as rng.
  revert Hlen. generalize (map key pairs1) as ks1, (map key pairs2) as ks2.
  intros ks1 ks2. revert ks2 sizes.
  induction ks1 as [|k1 ks1 IH]; intros [|k2 ks2] sizes Hlen total rng;
    try discriminate.
  - simpl. split; [reflexivity|tauto].
  - destruct sizes as [|s sizes]; [simpl; split; [reflexivity|tauto]|].
    simpl. destruct (limitBytes <=? total + s)%N.
    + destruct (Nat.eqb rng 0); simpl.
      * split; [now split|]. intros r; split; discriminate.
      * split; [reflexivity|tauto].
    + apply IH. simpl in Hlen. lia.
Qed.

End RangeSelectorFacts.

Section Scenarios.
Context {C : Collaborators}.

(** C6.  With byte limit 1000 and three pending pairs of combined size 400
    each, the first range is 2 pairs of 800 bytes; once those two are
    spliced off the pending list, the next range is the remaining pair. *)
Theorem getBundleRange_scenario_C p1 p2 p3 (st st' : St) :
  pairBytes p1 = Some 400%N ->
  pairBytes p2 = Some 400%N ->
  pairBytes p3 = Some 400%N ->
  filePairs st = [p1; p2; p3] ->
  fst (getBundleRange 1000%N (filePairs st) st) = Ok (mkBundleRange 2 800) /\
  filePairs (snd (splice0 2 st)) = [p3] /\
  fst (getBundleRange 1000%N (filePairs (snd (splice0 2 st))) st') =
    Ok (mkBundleRange 1 400).
Proof.
  intros H1 H2 H3 Hst. rewrite Hst. unfold getBundleRange.
  assert (Hs3 : SizesOf [p1; p2; p3] [400; 400; 400]%N)
    by (repeat constructor; assumption).
  assert (Hs1 : SizesOf [p3] [400]%N) by (repeat constructor; assumption).
  rewrite (getBundleRange_loop_selectRange 1000%N _ _ Hs3).
  unfold splice0; simpl snd; simpl filePairs. rewrite Hst. simpl skipn.
  rewrite (getBundleRange_loop_selectRange 1000%N _ _ Hs1).
  repeat split.
Qed.
End Scenarios.

(** ** Inverting the primitive steps *)

Section StepFacts.
Context {C : Collaborators}.

Lemma ret_inv {A} (a b : A) st st' :
  ret a st = (Ok b, st') -> a = b /\ st' = st.
Proof. unfold ret. intros H; injection H as -> ->. now split. Qed.

Lemma emit_inv ev st u st' :
  emit ev st = (Ok u, st') ->
  st' = mkSt (filePairs st) (world st) (trace st ++ [ev]).
Proof. unfold emit. intros H; now injection H as _ <-. Qed.

Lemma liftOption_inv {A} (o : option A) e st a st' :
  liftOption o e st = (Ok a, st') -> o = Some a /\ st' = st.
Proof.
  destruct o as [x|]; simpl; unfold ret, throw; intros H.
  - injection H as -> ->. now split.
  - discriminate.
Qed.

Lemma liftRes_inv {A} (r : Res A) st a st' :
  liftRes r st = (Ok a, st') -> r = Ok a /\ st' = st.
Proof. unfold liftRes. intros H; injection H as -> ->. now split. Qed.

Lemma liftWorld_inv {A} (f : World -> option (A * World)) e st a st' :
  liftWorld f e st = (Ok a, st') ->
  exists w, f (world st) = Some (a, w) /\
            st' = mkSt (filePairs st) w (trace st).
Proof.
  unfold liftWorld. destruct (f (world st)) as [[x w]|]; intros H.
  - injection H as -> <-. now exists w.
  - discriminate.
Qed.

Lemma signDataItem_inv signer item st item' st' :
  signDataItem signer item st = (Ok item', st') ->
  exists id w,
    sign signer item (world st) = Some (id, w) /\
    item' = mkDataItem (data item) (tags item) (Some id) /\
    st' = mkSt (filePairs st) w (trace st ++ [EvSign item]).
Proof.
  unfold signDataItem. intros H.
  apply bind_inv_ok in H as (u & st1 & H1 & H). apply emit_inv in H1. subst st1.
  apply bind_inv_ok in H as (id & st2 & H2 & H).
  apply liftWorld_inv in H2 as (w & Hs & ->). simpl in Hs.
  apply ret_inv in H as [<- ->]. now exists id, w.
Qed.

Lemma getImageDataItem_inv signer img st item st' :
  getImageDataItem signer img st = (Ok item, st') ->
  exists content,
    readFile img = Some content /\
    item = createData content signer imageTags /\
    st' = mkSt (filePairs st) (world st) (trace st ++ [EvReadFile img]).
Proof.
  unfold getImageDataItem. intros H.
  apply bind_inv_ok in H as (u & st1 & H1 & H). apply emit_inv in H1. subst st1.
  apply bind_inv_ok in H as (content & st2 & H2 & H).
  apply liftOption_inv in H2 as [Hr ->].
  apply ret_inv in H as [<- ->]. now exists content.
Qed.

Lemma getUpdatedManifest_inv manifestPath imageLink st mf st' :
  getUpdatedManifest manifestPath imageLink st = (Ok mf, st') ->
  exists text doc,
    readFile manifestPath = Some text /\
    JSON_parse text = Some doc /\
    updateManifest doc imageLink = Ok mf /\
    st' = mkSt (filePairs st) (world st) (trace st ++ [EvReadFile manifestPath]).
Proof.
  unfold getUpdatedManifest. intros H.
  apply bind_inv_ok in H as (u & st1 & H1 & H). apply emit_inv in H1. subst st1.
  apply bind_inv_ok in H as (text & st2 & H2 & H).
  apply liftOption_inv in H2 as [Hr ->].
  apply bind_inv_ok in H as (doc & st3 & H3 & H).
  apply liftOption_inv in H3 as [Hp ->].
  apply liftRes_inv in H as [Hu ->]. now exists text, doc.
Qed.

(** One step of the [reduce]: a success went through a successful
    accumulator and one transformed pair, whose calls extend the trace. *)
Lemma processBundleFilePair_inv signer accP p st acc' st' :
  processBundleFilePair signer accP p st = (Ok acc', st') ->
  exists acc st1 o,
    accP st = (Ok acc, st1) /\
    po_pair o = p /\
    Transformed signer (world st1) o (world st') /\
    acc' = pushAll acc [o] /\
    filePairs st' = filePairs st1 /\
    trace st' = trace st1 ++ callsOf signer o.
Proof.
  unfold processBundleFilePair. intros H.
  apply bind_inv_ok in H as (acc & st1 & Hacc & H).
  apply bind_inv_ok in H as (img0 & st2 & Himg & H).
  apply getImageDataItem_inv in Himg as (content & Hread & -> & ->).
  apply bind_inv_ok in H as (img & st3 & Hsign & H).
  apply signDataItem_inv in Hsign as (imageId & w1 & Hs1 & -> & ->).
  simpl in Hs1, H.
  apply bind_inv_ok in H as (mf & st4 & Hmf & H).
  apply getUpdatedManifest_inv in Hmf as (text & doc & Hread2 & Hparse & Hupd & ->).
  simpl in H.
  apply bind_inv_ok in H as (mItem & st5 & Hsign2 & H).
  apply signDataItem_inv in Hsign2 as (manifestId & w2 & Hs2 & -> & ->).
  simpl in Hs2.
  apply ret_inv in H as [<- ->].
  exists acc, st1,
    (mkOutcome p (mkDataItem content imageTags (Some imageId))
       (mkDataItem (JSON_stringify mf) manifestTags (Some manifestId)) mf).
  split; [exact Hacc|]. split; [reflexivity|]. split.
  - exists content, imageId, w1, text, doc, manifestId. simpl.
    repeat split; assumption.
  - split; [reflexivity|]. split; [reflexivity|].
    simpl. rewrite <- !app_assoc. reflexivity.
Qed.
End StepFacts.

(** ** Rewriting the manifest *)

Section ManifestFacts.
Context {C : Collaborators}.

Lemma lookupProp_assign_same k v ps :
  lookupProp k (assignProp k v ps) = Some v.
Proof.
  induction ps as [|[k' v'] ps IH]; simpl.
  - now rewrite String.eqb_refl.
  - destruct (String.eqb k k') eqn:E; simpl.
    + now rewrite String.eqb_refl.
    + now rewrite E.
Qed.

Lemma lookupProp_assign_other k v ps k' :
  k' <> k -> lookupProp k' (assignProp k v ps) = lookupProp k' ps.
Proof.
  intros Hk. apply String.eqb_neq in Hk.
  induction ps as [|[k0 v0] ps IH]; simpl.
  - now rewrite Hk.
  - destruct (String.eqb k k0) eqn:E; simpl.
    + apply String.eqb_eq in E. subst k0. now rewrite Hk.
    + now rewrite IH.
Qed.

Lemma setProp_get_same o k v o' :
  setProp o k v = Ok o' -> getProp o' k = Some v.
Proof.
  destruct o; simpl; intros H; try discriminate;
    injection H as <-; simpl; apply lookupProp_assign_same.
Qed.

Lemma setProp_get_other o k v o' k' :
  setProp o k v = Ok o' -> k' <> k -> getProp o' k' = getProp o k'.
Proof.
  destruct o; simpl; intros H Hk; try discriminate;
    injection H as <-; simpl; now apply lookupProp_assign_other.
Qed.

(** What the two assignments of [getUpdatedManifest] leave in the document
    whenever they both go through. *)
Lemma updateManifest_inv doc imageLink mf :
  updateManifest doc imageLink = Ok mf ->
  exists props props',
    getProp doc "properties" = Some props /\
    getProp mf "image" = Some (JStr imageLink) /\
    getProp mf "properties" = Some props' /\
    getProp props' "files" = Some (filesListing imageLink) /\
    (forall k, k <> "image" -> k <> "properties" ->
               getProp mf k = getProp doc k) /\
    (forall k, k <> "files" -> getProp props' k = getProp props k).
Proof.
  unfold updateManifest, setNestedProp.
  destruct (setProp doc "image" (JStr imageLink)) as [doc1|] eqn:E1;
    [|discriminate].
  destruct (getProp doc1 "properties") as [props|] eqn:Ep; [|discriminate].
  destruct (setProp props "files" (filesListing imageLink)) as [props'|] eqn:E2;
    [|discriminate].
  intros E3. exists props, props'.
  assert (Hne : "properties" <> "image") by discriminate.
  split; [now rewrite <- (setProp_get_other _ _ _ _ _ E1 Hne)|].
  split.
  { rewrite (setProp_get_other _ _ _ _ "image" E3) by discriminate.
    apply (setProp_get_same _ _ _ _ E1). }
  split; [apply (setProp_get_same _ _ _ _ E3)|].
  split; [apply (setProp_get_same _ _ _ _ E2)|].
  split.
  - intros k Hk1 Hk2.
    rewrite (setProp_get_other _ _ _ _ _ E3 Hk2). apply (setProp_get_other _ _ _ _ _ E1 Hk1).
  - intros k Hk. apply (setProp_get_other _ _ _ _ _ E2 Hk).
Qed.

Lemma updateManifest_wellFormed doc imageLink :
  wellFormedManifest doc = true ->
  exists mf, updateManifest doc imageLink = Ok mf.
Proof.
  destruct doc as [| | | | |ps]; simpl; try discriminate.
  destruct (lookupProp "properties" ps) as [[| | | | |pp]|] eqn:E;
    try discriminate.
  intros _. unfold updateManifest, setNestedProp. simpl.
  rewrite lookupProp_assign_other by discriminate. rewrite E. simpl.
  eexists; reflexivity.
Qed.

(** C7.  For a metadata document of the shape [Manifest] (an object whose
    [properties] is an object) and any image link, [getUpdatedManifest]
    returns the parsed document with [image] set to the link and
    [properties.files] replaced by the one entry
    [{ type: 'image/png', uri: link }]; every other field of the document
    and of its [properties] reads as before. *)
Theorem getUpdatedManifest_rewrites manifestPath imageLink text doc st :
  readFile manifestPath = Some text ->
  JSON_parse text = Some doc ->
  wellFormedManifest doc = true ->
  exists mf props props',
    getUpdatedManifest manifestPath imageLink st =
      (Ok mf, mkSt (filePairs st) (world st)
                (trace st ++ [EvReadFile manifestPath])) /\
    getProp mf "image" = Some (JStr imageLink) /\
    getProp doc "properties" = Some props /\
    getProp mf "properties" = Some props' /\
    getProp props' "files" =
      Some (JArr [JObj [("type", JStr CONTENT_TYPES_png);
                        ("uri", JStr imageLink)]] []) /\
    (forall k, k <> "image" -> k <> "properties" ->
               getProp mf k = getProp doc k) /\
    (forall k, k <> "files" -> getProp props' k = getProp props k).
Proof.
  intros Hread Hparse Hwf.
  destruct (updateManifest_wellFormed doc imageLink Hwf) as [mf Hmf].
  destruct (updateManifest_inv _ _ _ Hmf)
    as (props & props' & Hp & Himg & Hp' & Hfiles & Hrest & Hrest').
  exists mf, props, props'.
  split.
  - unfold getUpdatedManifest, bind, emit, liftOption, liftRes.
    rewrite Hread. simpl. rewrite Hparse. simpl. now rewrite Hmf.
  - repeat split; assumption.
Qed.
End ManifestFacts.

(** ** The pending list under the steps of a bundle *)

Section PendingFacts.
Context {C : Collaborators}.

Lemma keeps_ret {A} (a : A) : KeepsPending (ret a).
Proof. intros st. reflexivity. Qed.

Lemma keeps_throw {A} e : KeepsPending (@throw _ A e).
Proof. intros st. reflexivity. Qed.

Lemma keeps_emit ev : KeepsPending (emit ev).
Proof. intros st. reflexivity. Qed.

Lemma keeps_liftOption {A} (o : option A) e : KeepsPending (liftOption o e).
Proof. intros st. now destruct o. Qed.

Lemma keeps_liftRes {A} (r : Res A) : KeepsPending (liftRes r).
Proof. intros st. reflexivity. Qed.

Lemma keeps_liftWorld {A} (f : World -> option (A * World)) e :
  KeepsPending (liftWorld f e).
Proof.
  intros st. unfold liftWorld. now destruct (f (world st)) as [[a w]|].
Qed.

Lemma keeps_bind {A B} (m : M A) (k : A -> M B) :
  KeepsPending m -> (forall a, KeepsPending (k a)) -> KeepsPending (bind m k).
Proof.
  intros Hm Hk st. unfold bind. specialize (Hm st).
  destruct (m st) as [[a|e] st1]; simpl in Hm.
  - now rewrite Hk.
  - exact Hm.
Qed.

Create HintDb pending.

#[local] Hint Resolve keeps_ret keeps_throw keeps_emit keeps_liftOption
  keeps_liftRes keeps_liftWorld : pending.

Ltac keeps := repeat (apply keeps_bind; [|intros ?]); auto with pending.

Lemma keeps_filePairSizeOf p : KeepsPending (filePairSizeOf p).
Proof. unfold filePairSizeOf, statSize. simpl. keeps. Qed.

Lemma keeps_getBundleRange_loop limitBytes pairs :
  forall total rng,
    KeepsPending (getBundleRange_loop limitBytes pairs total rng).
Proof.
  induction pairs as [|p pairs IH]; intros total rng; simpl.
  - apply keeps_ret.
  - apply keeps_bind; [apply keeps_filePairSizeOf|]. intros s.
    destruct (limitBytes <=? total + s)%N; [|apply IH].
    destruct (Nat.eqb rng 0); auto with pending.
Qed.

Lemma keeps_getBundleRange limitBytes pairs :
  KeepsPending (getBundleRange limitBytes pairs).
Proof. apply keeps_getBundleRange_loop. Qed.

Lemma keeps_processBundleFilePair signer accP p :
  KeepsPending accP -> KeepsPending (processBundleFilePair signer accP p).
Proof.
  intros Hacc. unfold processBundleFilePair, getImageDataItem, signDataItem,
    getUpdatedManifest.
  apply keeps_bind; [exact Hacc|]. intros acc. keeps.
Qed.

Lemma keeps_reduce signer pairs :
  forall accP,
    KeepsPending accP ->
    KeepsPending (fold_left (processBundleFilePair signer) pairs accP).
Proof.
  induction pairs as [|p pairs IH]; intros accP Hacc; simpl.
  - exact Hacc.
  - apply IH. now apply keeps_processBundleFilePair.
Qed.

(** Whatever happens to a bundle, [processBundle] leaves the pending list
    without the pairs of its range. *)
Lemma processBundle_pending signer jwk r st :
  filePairs (snd (processBundle signer jwk r st)) =
  skipn (range r) (filePairs st).
Proof.
  unfold processBundle. unfold bind at 1. unfold splice0 at 1.
  match goal with
  | |- filePairs (snd (?k ?st1)) = _ =>
      assert (Hk : KeepsPending k); [|exact (Hk st1)]
  end.
  apply keeps_bind.
  - apply keeps_reduce. apply keeps_ret.
  - intros acc. keeps.
Qed.

(** The whole [reduce]: a success is a chain of transformed pairs. *)
Lemma reduce_inv signer pairs :
  forall accP st acc' st',
    fold_left (processBundleFilePair signer) pairs accP st = (Ok acc', st') ->
    exists acc st1 outs,
      accP st = (Ok acc, st1) /\
      map po_pair outs = pairs /\
      TransformedAll signer (world st1) outs (world st') /\
      acc' = pushAll acc outs /\
      filePairs st' = filePairs st1 /\
      trace st' = trace st1 ++ flat_map (callsOf signer) outs.
Proof.
  induction pairs as [|p pairs IH]; intros accP st acc' st' H; simpl in H.
  - exists acc', st', []. split; [exact H|]. split; [reflexivity|].
    split; [constructor|]. destruct acc'. unfold pushAll; simpl.
    rewrite !app_nil_r. repeat split.
  - apply IH in H as (acc1 & st2 & outs & Hstep & Hmap & Hall & -> & Hfp & Htr).
    apply processBundleFilePair_inv in Hstep
      as (acc & st1 & o & Hacc & Hpair & Ho & -> & Hfp1 & Htr1).
    exists acc, st1, (o :: outs).
    split; [exact Hacc|]. split; [simpl; now rewrite Hpair, Hmap|].
    split; [econstructor; eassumption|].
    split.
    + unfold pushAll; simpl. rewrite <- !app_assoc. reflexivity.
    + split; [congruence|]. rewrite Htr, Htr1. simpl.
      rewrite <- !app_assoc. reflexivity.
Qed.

(** A bundle that succeeds: the spliced prefix was transformed pair by pair,
    the records went to bundling interleaved, and the result lists the
    keys, links and manifests of those pairs. *)
Lemma processBundle_inv signer jwk r st res st' :
  processBundle signer jwk r st = (Ok res, st') ->
  exists outs w,
    map po_pair outs = firstn (range r) (filePairs st) /\
    TransformedAll signer (world st) outs w /\
    res = mkResult (keysOf outs) (linksOf outs) (manifestsOf outs) /\
    filePairs st' = skipn (range r) (filePairs st) /\
    trace st' = trace st ++ flat_map (callsOf signer) outs ++
                [EvBundle (recordsOf outs); EvToTransaction;
                 EvSignTransaction; EvPost].
Proof.
  intros H.
  pose proof (processBundle_pending signer jwk r st) as Hpend.
  rewrite H in Hpend. simpl in Hpend.
  unfold processBundle in H.
  apply bind_inv_ok in H as (bfp & st1 & Hsplice & H).
  unfold splice0 in Hsplice. injection Hsplice as <- <-.
  apply bind_inv_ok in H as (acc & st2 & Hred & H).
  apply reduce_inv in Hred
    as (acc0 & st1' & outs & Hret & Hmap & Hall & -> & _ & Htr).
  apply ret_inv in Hret as [<- ->]. simpl in Hmap, Hall, Htr.
  apply bind_inv_ok in H as (u1 & st3 & He1 & H). apply emit_inv in He1.
  apply bind_inv_ok in H as (bundle & st4 & Hb & H).
  apply liftWorld_inv in Hb as (w4 & _ & ->).
  apply bind_inv_ok in H as (u2 & st5 & He2 & H). apply emit_inv in He2.
  apply bind_inv_ok in H as (tx & st6 & Ht & H).
  apply liftWorld_inv in Ht as (w6 & _ & ->).
  apply bind_inv_ok in H as (u3 & st7 & He3 & H). apply emit_inv in He3.
  apply bind_inv_ok in H as (tx' & st8 & Ht' & H).
  apply liftWorld_inv in Ht' as (w8 & _ & ->).
  apply bind_inv_ok in H as (u4 & st9 & He4 & H). apply emit_inv in He4.
  apply bind_inv_ok in H as (u5 & st10 & Hpost & H).
  apply liftWorld_inv in Hpost as (w10 & _ & ->).
  apply ret_inv in H as [<- ->].
  exists outs, (world st2).
  split; [exact Hmap|]. split; [exact Hall|]. split; [reflexivity|].
  split; [exact Hpend|].
  subst. simpl. rewrite Htr. simpl. rewrite <- !app_assoc. reflexivity.
Qed.
End PendingFacts.

(** ** The pair transformer *)

Section TransformerFacts.
Context {C : Collaborators}.
Variable signer : ArweaveSigner.





End TransformerFacts.

(** ** The driver *)

Section DriverFacts.
Context {C : Collaborators}.
Variable limitBytes : N.

Lemma getBundleRange_loop_range pairs :
  forall total rng st r st',
    getBundleRange_loop limitBytes pairs total rng st = (Ok r, st') ->
    rng <= range r <= rng + List.length pairs /\
    (pairs <> [] -> 1 <= range r).
Proof.
  induction pairs as [|p pairs IH]; intros total rng st r st' H; simpl in H.
  - apply ret_inv in H as [<- _]. simpl. split; [lia|congruence].
  - apply bind_inv_ok in H as (s & st1 & _ & H).
    destruct (limitBytes <=? total + s)%N.
    + destruct (Nat.eqb_spec rng 0) as [->|Hrng]; [discriminate|].
      apply ret_inv in H as [<- _]. simpl. split; [lia|intros _; lia].
    + apply IH in H as [H1 _]. simpl. split; [lia|intros _; lia].
Qed.

Lemma TransformedAll_Valid signer w outs w' :
  TransformedAll signer w outs w' -> Forall (Valid signer) outs.
Proof.
  induction 1 as [|w o w1 outs w' Ho _ IH]; constructor.
  - now exists w, w1.
  - exact IH.
Qed.

(** A resolved promise of the loop: a range was computed over the pending
    list, that many pairs left the list and were transformed. *)
Lemma bundlePromise_inv signer jwk st res st' :
  bundlePromise limitBytes signer jwk st = (Ok res, st') ->
  exists r outs,
    fst (getBundleRange limitBytes (filePairs st) st) = Ok r /\
    map po_pair outs = firstn (range r) (filePairs st) /\
    Forall (Valid signer) outs /\
    Aligned outs res /\
    filePairs st' = skipn (range r) (filePairs st).
Proof.
  unfold bundlePromise. intros H.
  apply bind_inv_ok in H as (r & st1 & Hr & H).
  pose proof (keeps_getBundleRange limitBytes (filePairs st) st) as Hk.
  rewrite Hr in Hk. simpl in Hk.
  apply processBundle_inv in H as (outs & w & Hmap & Hall & -> & Hfp & _).
  rewrite Hk in Hmap, Hfp.
  exists r, outs. rewrite Hr.
  split; [reflexivity|]. split; [exact Hmap|].
  split; [exact (TransformedAll_Valid _ _ _ _ Hall)|].
  split; [now repeat split|exact Hfp].
Qed.

Lemma bundlePromise_shrinks signer jwk st res st' :
  filePairs st <> [] ->
  bundlePromise limitBytes signer jwk st = (Ok res, st') ->
  List.length (filePairs st') < List.length (filePairs st).
Proof.
  intros Hne H. unfold bundlePromise in H.
  apply bind_inv_ok in H as (r & st1 & Hr & H).
  pose proof (keeps_getBundleRange limitBytes (filePairs st) st) as Hk.
  rewrite Hr in Hk. simpl in Hk.
  apply getBundleRange_loop_range in Hr as [_ Hge]. specialize (Hge Hne).
  pose proof (processBundle_pending signer jwk r st1) as Hp.
  rewrite H in Hp. simpl in Hp. rewrite Hp, Hk, length_skipn.
  assert (0 < List.length (filePairs st))
    by (destruct (filePairs st); [congruence|simpl; lia]).
  lia.
Qed.

Lemma next_loop signer jwk st p ps :
  filePairs st = p :: ps ->
  next limitBytes (SuspendedYield signer jwk) st =
    (Yielded (bundlePromise limitBytes signer jwk), SuspendedYield signer jwk, st).
Proof. intros H. simpl. now rewrite H. Qed.

Lemma Aligned_sameLengths outs r : Aligned outs r -> sameLengths r.
Proof.
  intros (Hk & Hl & Hm). unfold sameLengths.
  rewrite Hk, Hl, Hm. unfold keysOf, linksOf, manifestsOf.
  now rewrite !length_map.
Qed.

(** What the consumer has collected from the loop of the generator: the
    results describe consecutive segments of the pending list, in order. *)
Lemma drain_loop_inv signer jwk fuel :
  forall st rs out st',
    drain limitBytes fuel (SuspendedYield signer jwk) st = (rs, out, st') ->
    exists segments rest,
      Forall2 Aligned segments rs /\
      Forall (Forall (Valid signer)) segments /\
      filePairs st = map po_pair (List.concat segments) ++ rest.
Proof.
  induction fuel as [|fuel IH]; intros st rs out st' H.
  - simpl in H. injection H as <- _ _. exists [], (filePairs st).
    repeat split; constructor.
  - destruct (filePairs st) as [|p ps] eqn:Efp.
    + simpl in H. rewrite Efp in H. injection H as <- _ _.
      exists [], []. repeat split; constructor.
    + cbn [drain] in H. rewrite (next_loop signer jwk st p ps Efp) in H.
      destruct (bundlePromise limitBytes signer jwk st) as [[res|e] st2] eqn:Ep.
      * destruct (drain limitBytes fuel (SuspendedYield signer jwk) st2)
          as [[rs' out'] st3] eqn:Ed.
        injection H as <- _ _.
        apply bundlePromise_inv in Ep as (r & outs & _ & Hmap & Hval & Hal & Hfp).
        apply IH in Ed as (segs & rest & Hsegs & Hvals & Hrest).
        exists (outs :: segs), rest.
        split; [now constructor|]. split; [now constructor|].
        simpl. rewrite map_app, Hmap, <- app_assoc, <- Hrest, Hfp, Efp.
        symmetry. apply firstn_skipn.
      * injection H as <- _ _. exists [], (p :: ps).
        repeat split; constructor.
Qed.
Lemma Aligned_keys segments rs :
  Forall2 Aligned segments rs ->
  List.concat (map cacheKeys rs) = keysOf (List.concat segments).
Proof.
  induction 1 as [|seg r segments rs (Hk & _) _ IH]; [reflexivity|].
  simpl. unfold keysOf in *. now rewrite map_app, Hk, IH.
Qed.

Lemma Aligned_all_sameLengths segments rs :
  Forall2 Aligned segments rs -> Forall sameLengths rs.
Proof.
  induction 1 as [|seg r segments rs Ha _ IH]; constructor.
  - exact (Aligned_sameLengths _ _ Ha).
  - exact IH.
Qed.

Lemma keys_toFilePair dirname assets :
  map key (map (toFilePair dirname) assets) = assets.
Proof.
  induction assets as [|a assets IH]; simpl; [reflexivity|now rewrite IH].
Qed.

(** The first pull when the signer could be built: the empty result, then
    the loop over the pending list. *)
Lemma drain_start dirname assets jwk signer fuel st :
  newArweaveSigner jwk = Ok signer ->
  drain limitBytes (S fuel)
    (makeArweaveBundleUploadGenerator dirname assets jwk) st =
  let '(rs, out, st') :=
    drain limitBytes fuel (SuspendedYield signer jwk)
      (mkSt (map (toFilePair dirname) assets) (world st) (trace st)) in
  (emptyResult :: rs, out, st').
Proof. intros H. cbn [drain next makeArweaveBundleUploadGenerator]. now rewrite H. Qed.

(** The first pull when the constructor of the signer throws. *)
Lemma drain_start_thrown dirname assets jwk e fuel st :
  newArweaveSigner jwk = Err e ->
  drain limitBytes (S fuel)
    (makeArweaveBundleUploadGenerator dirname assets jwk) st =
  ([], Failed e, st).
Proof. intros H. cbn [drain next makeArweaveBundleUploadGenerator]. now rewrite H. Qed.

(** C4.  Whatever a consumer that awaits each promise before pulling the
    next has collected from the driver, the results describe consecutive,
    disjoint segments of the original list of pairs, in order: the cache
    keys of all results, put end to end, are a prefix of the assets (so a
    pair is in one result or in none, never in two); and in each result
    [cacheKeys], [manifestLinks] and [updatedManifests] have the same
    length, index [i] of each coming from the transformation of the same
    pair of the segment. *)
Theorem drain_results_partition_pending dirname assets jwk fuel st rs out st' :
  drain limitBytes fuel (makeArweaveBundleUploadGenerator dirname assets jwk) st
    = (rs, out, st') ->
  exists segments rest,
    Forall2 Aligned segments rs /\
    Forall (Forall (fun o => exists signer,
                        newArweaveSigner jwk = Ok signer /\ Valid signer o))
           segments /\
    map (toFilePair dirname) assets =
      map po_pair (List.concat segments) ++ rest /\
    assets = List.concat (map cacheKeys rs) ++ map key rest /\
    Forall sameLengths rs /\
    (NoDup assets -> NoDup (List.concat (map cacheKeys rs))).
Proof.
  intros H.
  assert (Hsegs : exists segments rest,
             Forall2 Aligned segments rs /\
             Forall (Forall (fun o => exists signer,
                                 newArweaveSigner jwk = Ok signer /\
                                 Valid signer o))
                    segments /\
             map (toFilePair dirname) assets =
               map po_pair (List.concat segments) ++ rest).
  { destruct fuel as [|fuel].
    - simpl in H. injection H as <- _ _.
      exists [], (map (toFilePair dirname) assets). repeat split; constructor.
    - destruct (newArweaveSigner jwk) as [signer|e] eqn:Es.
      + rewrite (drain_start _ _ _ _ _ _ Es) in H.
        match type of H with
        | context [drain limitBytes fuel ?g ?s] =>
            destruct (drain limitBytes fuel g s) as [[rs' out'] st3] eqn:Ed
        end.
        injection H as <- _ _.
        apply drain_loop_inv in Ed as (segs & rest & Hal & Hval & Hfp).
        simpl in Hfp.
        exists ([] :: segs), rest.
        split; [constructor; [now repeat split|exact Hal]|].
        split; [|exact Hfp].
        constructor; [constructor|].
        eapply Forall_impl; [|exact Hval].
        intros seg Hseg. eapply Forall_impl; [|exact Hseg].
        intros o Ho. now exists signer.
      + rewrite (drain_start_thrown _ _ _ _ _ _ Es) in H.
        injection H as <- _ _.
        exists [], (map (toFilePair dirname) assets).
        repeat split; constructor. }
  destruct Hsegs as (segments & rest & Hal & Hval & Hfp).
  assert (Hkeys : assets = List.concat (map cacheKeys rs) ++ map key rest).
  { rewrite <- (keys_toFilePair dirname assets) at 1.
    rewrite Hfp, map_app, map_map, (Aligned_keys _ _ Hal). reflexivity. }
  exists segments, rest.
  split; [exact Hal|]. split; [exact Hval|]. split; [exact Hfp|].
  split; [exact Hkeys|]. split; [exact (Aligned_all_sameLengths _ _ Hal)|].
  intros Hnd. rewrite Hkeys in Hnd. now apply NoDup_app_remove_r in Hnd.
Qed.


(** C8.  For every list of assets, the first pull of the driver calls no
    collaborator: the outside world and the trace are as before, and no
    range is computed, no file read, nothing signed or posted.  It never
    reports [done].  When the signer could be built from the key, it sets
    up the pending list and yields a promise already resolved to the empty
    result, which is the first result the consumer gets.  When the
    constructor of the signer throws, the pull throws that error and yields
    nothing.  So the first result a consumer gets, whenever it gets one, is
    the empty result. *)
Theorem first_result_is_empty dirname assets jwk st :
  (forall ir g' st',
      next limitBytes (makeArweaveBundleUploadGenerator dirname assets jwk) st
        = (ir, g', st') ->
      world st' = world st /\ trace st' = trace st /\
      ((exists signer,
           newArweaveSigner jwk = Ok signer /\
           ir = Yielded (ret emptyResult) /\
           g' = SuspendedYield signer jwk /\
           filePairs st' = map (toFilePair dirname) assets) \/
       (exists e,
           newArweaveSigner jwk = Err e /\
           ir = Thrown e /\ g' = Completed /\ st' = st))) /\
  (forall st1, ret emptyResult st1 = (Ok emptyResult, st1)) /\
  cacheKeys emptyResult = [] /\
  manifestLinks emptyResult = [] /\
  updatedManifests emptyResult = [] /\
  (forall signer,
      newArweaveSigner jwk = Ok signer ->
      forall fuel, exists rs out st',
        drain limitBytes (S fuel)
          (makeArweaveBundleUploadGenerator dirname assets jwk) st
        = (emptyResult :: rs, out, st')) /\
  (forall fuel r rs out st',
      drain limitBytes fuel
        (makeArweaveBundleUploadGenerator dirname assets jwk) st
      = (r :: rs, out, st') ->
      r = emptyResult).
Proof.
  split.
  { intros ir g' st'. cbn [next makeArweaveBundleUploadGenerator].
    destruct (newArweaveSigner jwk) as [signer|e];
      intros H; injection H as <- <- <-; simpl.
    - split; [reflexivity|]. split; [reflexivity|]. left. now exists signer.
    - split; [reflexivity|]. split; [reflexivity|]. right. now exists e. }
  do 4 (split; [reflexivity|]).
  split.
  - intros signer Hs fuel. rewrite (drain_start _ _ _ _ _ _ Hs).
    match goal with
    | |- context [drain limitBytes fuel ?g ?s] =>
        destruct (drain limitBytes fuel g s) as [[rs out] st3]
    end.
    now exists rs, out, st3.
  - intros [|fuel] r rs out st' H; [discriminate|].
    destruct (newArweaveSigner jwk) as [signer|e] eqn:Es.
    + rewrite (drain_start _ _ _ _ _ _ Es) in H.
      match type of H with
      | context [drain limitBytes fuel ?g ?s] =>
          destruct (drain limitBytes fuel g s) as [[rs' out'] st3]
      end.
      now injection H as <- _ _ _.
    + rewrite (drain_start_thrown _ _ _ _ _ _ Es) in H. discriminate.
Qed.

(** From the loop of the generator, more pulls than pending pairs always
    end the consumer, with at most one result per pending pair. *)
Lemma drain_loop_terminates signer jwk fuel :
  forall st,
    List.length (filePairs st) < fuel ->
    snd (fst (drain limitBytes fuel (SuspendedYield signer jwk) st))
      <> StillPending /\
    List.length (fst (fst (drain limitBytes fuel (SuspendedYield signer jwk) st)))
      <= List.length (filePairs st).
Proof.
  induction fuel as [|fuel IH]; intros st Hfuel; [lia|].
  destruct (filePairs st) as [|p ps] eqn:Efp.
  - simpl. rewrite Efp. simpl. split; [discriminate|lia].
  - cbn [drain]. rewrite (next_loop signer jwk st p ps Efp).
    destruct (bundlePromise limitBytes signer jwk st) as [[res|e] st2] eqn:Ep.
    + assert (Hlt : List.length (filePairs st2) < List.length (filePairs st)).
      { apply (bundlePromise_shrinks signer jwk st res st2); [|exact Ep].
        rewrite Efp. discriminate. }
      rewrite Efp in Hlt.
      destruct (IH st2) as [Hout Hlen]; [simpl in *; lia|].
      destruct (drain limitBytes fuel (SuspendedYield signer jwk) st2)
        as [[rs' out'] st3].
      simpl in *. split; [exact Hout|lia].
    + simpl. split; [discriminate|lia].
Qed.

(** C9.  On a non-empty pending list [getBundleRange] fails or selects at
    least one pair; so a bundle that succeeds leaves a strictly shorter
    pending list; and a consumer of a driver over [n] assets is through
    after at most [n + 2] pulls, having got at most [1 + n] results. *)
Theorem driver_terminates :
  (forall pairs st r st',
      pairs <> [] ->
      getBundleRange limitBytes pairs st = (Ok r, st') -> 1 <= range r) /\
  (forall signer jwk st res st',
      filePairs st <> [] ->
      bundlePromise limitBytes signer jwk st = (Ok res, st') ->
      List.length (filePairs st') < List.length (filePairs st)) /\
  (forall dirname assets jwk st fuel,
      List.length assets + 2 <= fuel ->
      snd (fst (drain limitBytes fuel
                  (makeArweaveBundleUploadGenerator dirname assets jwk) st))
        <> StillPending /\
      List.length
        (fst (fst (drain limitBytes fuel
                     (makeArweaveBundleUploadGenerator dirname assets jwk) st)))
        <= 1 + List.length assets).
Proof.
  split; [|split].
  - intros pairs st r st' Hne H.
    apply getBundleRange_loop_range in H as [_ Hge]. exact (Hge Hne).
  - exact bundlePromise_shrinks.
  - intros dirname assets jwk st [|fuel] Hfuel; [lia|].
    destruct (newArweaveSigner jwk) as [signer|e] eqn:Es.
    + rewrite (drain_start _ _ _ _ _ _ Es).
      match goal with
      | |- context [drain limitBytes fuel ?g ?s] =>
          destruct (drain_loop_terminates signer jwk fuel s)
            as [Hout Hlen];
          [simpl; rewrite length_map; lia|];
          destruct (drain limitBytes fuel g s) as [[rs out] st3]
      end.
      simpl in *. rewrite length_map in Hlen. split; [exact Hout|lia].
    + rewrite (drain_start_thrown _ _ _ _ _ _ Es). simpl.
      split; [discriminate|lia].
Qed.
End DriverFacts.

(** * The statements at work in the small world *)

Section DemoRuns.
Import Demo.

(** Scenario A: two pairs of 400 bytes under a limit of 1000. *)
Example scenario_A :
  fst (getBundleRange 1000%N [pair "0"; pair "1"] st0) =
  Ok (mkBundleRange 2 800).
Proof. reflexivity. Qed.

(** Scenario B: a first pair of 1200 bytes under a limit of 1000. *)
Example scenario_B :
  fst (getBundleRange 1000%N [pair "big"; pair "0"] st0) =
  Err (OversizePair "big" 1200 1000).
Proof. reflexivity. Qed.

(** With a limit of 0 and nothing pending the loop does not run: the range
    is empty, and its sum 0 is not below the limit. *)
Example empty_list_zero_limit :
  fst (getBundleRange 0%N [] st0) = Ok (mkBundleRange 0 0).
Proof. reflexivity. Qed.

(** A document without [properties] parses, and the second assignment of
    [getUpdatedManifest] throws. *)
Example bare_document_rejected :
  fst (getUpdatedManifest "/assets/2.json" "https://arweave.net/tx0" st0) =
  Err TypeError.
Proof. reflexivity. Qed.

Lemma getBundleRange_maximal_prefix_witness :
  SizesOf pairs3 [400; 400; 400]%N /\
  ((0 < 1000)%N \/ pairs3 <> []) /\
  exists count,
    fst (getBundleRange 1000%N pairs3 st0) =
      Ok (mkBundleRange count (prefixSum [400; 400; 400]%N count)) /\
    MaximalPrefix 1000%N [400; 400; 400]%N count /\
    (pairs3 <> [] -> 1 <= count).
Proof.
  assert (Hs : SizesOf pairs3 [400; 400; 400]%N)
    by (repeat constructor).
  assert (Hl : (0 < 1000)%N \/ pairs3 <> []) by (left; reflexivity).
  split; [exact Hs|]. split; [exact Hl|].
  destruct (getBundleRange_maximal_prefix 1000%N pairs3 [400; 400; 400]%N
              st0 Hs Hl) as (_ & Hsel & _).
  apply Hsel. intros s0 H0. injection H0 as <-. reflexivity.
Defined.

(** C2 as stated fails: under the limit of the source, a single pending
    pair of 250000512 bytes gets no [BundleRange] with [range = 1]; the
    call is rejected. *)
Lemma getBundleRange_oversize_count_one_counterexample :
  pairBytes (pair "huge") = Some 250000512%N /\
  (BUNDLE_SIZE_BYTE_LIMIT <= 250000512)%N /\
  fst (getBundleRange BUNDLE_SIZE_BYTE_LIMIT [pair "huge"] st0) =
    Err (OversizePair "huge" 250000512 BUNDLE_SIZE_BYTE_LIMIT) /\
  ~ (exists r,
        fst (getBundleRange BUNDLE_SIZE_BYTE_LIMIT [pair "huge"] st0) = Ok r /\
        range r = 1).
Proof.
  split; [reflexivity|]. split; [vm_compute; discriminate|].
  split; [reflexivity|].
  intros (r & Hr & _). vm_compute in Hr. discriminate.
Defined.

Lemma getBundleRange_oversize_throws_witness :
  pairBytes (pair "huge") = Some 250000512%N /\
  (BUNDLE_SIZE_BYTE_LIMIT <= 250000512)%N /\
  fst (getBundleRange BUNDLE_SIZE_BYTE_LIMIT (pair "huge" :: pairs3) st0) =
    Err (OversizePair "huge" 250000512 BUNDLE_SIZE_BYTE_LIMIT).
Proof.
  assert (Hp : pairBytes (pair "huge") = Some 250000512%N) by reflexivity.
  assert (Hl : (BUNDLE_SIZE_BYTE_LIMIT <= 250000512)%N)
    by (vm_compute; discriminate).
  split; [exact Hp|]. split; [exact Hl|].
  exact (proj1 (getBundleRange_oversize_throws BUNDLE_SIZE_BYTE_LIMIT
                  (pair "huge") pairs3 250000512%N st0 Hp Hl)).
Defined.

Lemma getBundleRange_depends_on_sizes_only_witness :
  sameRange (fst (getBundleRange 1000%N [pair "0"; pair "1"; pair "2"] st0))
            (fst (getBundleRange 1000%N [pair "2"; pair "0"; pair "1"]
                    (stWith pairsBad))).
Proof.
  refine (proj1 (getBundleRange_depends_on_sizes_only 1000%N
                   [pair "0"; pair "1"; pair "2"]
                   [pair "2"; pair "0"; pair "1"] st0 (stWith pairsBad) _)).
  repeat constructor; exists 400%N; split; reflexivity.
Defined.

Lemma getBundleRange_scenario_C_witness :
  fst (getBundleRange 1000%N (filePairs (stWith pairs3)) (stWith pairs3)) =
    Ok (mkBundleRange 2 800) /\
  filePairs (snd (splice0 2 (stWith pairs3))) = [pair "2"] /\
  fst (getBundleRange 1000%N (filePairs (snd (splice0 2 (stWith pairs3)))) st0) =
    Ok (mkBundleRange 1 400).
Proof.
  apply (getBundleRange_scenario_C (pair "0") (pair "1") (pair "2"));
    reflexivity.
Defined.

Lemma getUpdatedManifest_rewrites_witness :
  exists mf props',
    fst (getUpdatedManifest "/assets/0.json" "https://arweave.net/tx0" st0) =
      Ok mf /\
    getProp mf "image" = Some (JStr "https://arweave.net/tx0") /\
    getProp mf "properties" = Some props' /\
    getProp props' "files" =
      Some (JArr [JObj [("type", JStr "image/png");
                        ("uri", JStr "https://arweave.net/tx0")]] []) /\
    getProp mf "name" = Some (JStr "Asset #0") /\
    getProp props' "category" = Some (JStr "image").
Proof.
  destruct (getUpdatedManifest_rewrites "/assets/0.json"
              "https://arweave.net/tx0" "json-text-0" doc0 st0
              eq_refl eq_refl eq_refl)
    as (mf & props & props' & Hrun & Himg & Hp & Hp' & Hfiles & Hrest & Hrest').
  exists mf, props'. rewrite Hrun.
  split; [reflexivity|]. split; [exact Himg|]. split; [exact Hp'|].
  split; [exact Hfiles|]. split.
  - rewrite Hrest by discriminate. reflexivity.
  - rewrite Hrest' by discriminate. injection Hp as <-. reflexivity.
Defined.

Lemma drain_results_partition_pending_witness :
  exists rs st' segments,
    drain 500%N 4 (makeArweaveBundleUploadGenerator "/assets" ["0"; "1"] theJwk)
      st0 = (rs, Exhausted, st') /\
    map cacheKeys rs = [[]; ["0"]; ["1"]] /\
    Forall2 Aligned segments rs /\
    Forall sameLengths rs /\
    NoDup (List.concat (map cacheKeys rs)).
Proof.
  destruct (drain 500%N 4
              (makeArweaveBundleUploadGenerator "/assets" ["0"; "1"] theJwk)
              st0) as [[rs out] st'] eqn:E.
  destruct (drain_results_partition_pending 500%N "/assets" ["0"; "1"]
              theJwk 4 st0 rs out st' E)
    as (segments & rest & Hal & _ & _ & Hkeys & Hlens & Hnd).
  exists rs, st', segments.
  vm_compute in E. injection E as <- <- _.
  split; [reflexivity|]. split; [reflexivity|]. split; [exact Hal|].
  split; [exact Hlens|].
  apply Hnd. repeat constructor; simpl; intuition discriminate.
Defined.


Lemma first_result_is_empty_witness :
  newArweaveSigner theJwk = Ok theSigner /\
  newArweaveSigner badJwk = Err TypeError /\
  (exists rs out st',
      drain 1000%N 1 (makeArweaveBundleUploadGenerator "/assets" ["0"; "1"] theJwk)
        st0 = (emptyResult :: rs, out, st')) /\
  next 1000%N (makeArweaveBundleUploadGenerator "/assets" ["0"; "1"] badJwk) st0
    = (Thrown TypeError, Completed, st0).
Proof.
  assert (Hok : newArweaveSigner theJwk = Ok theSigner) by reflexivity.
  assert (Hbad : newArweaveSigner badJwk = Err TypeError) by reflexivity.
  split; [exact Hok|]. split; [exact Hbad|].
  destruct (first_result_is_empty 1000%N "/assets" ["0"; "1"] theJwk st0)
    as (_ & _ & _ & _ & _ & Hfirst & _).
  split; [exact (Hfirst theSigner Hok 0)|].
  destruct (first_result_is_empty 1000%N "/assets" ["0"; "1"] badJwk st0)
    as (Hnext & _).
  destruct (next 1000%N
              (makeArweaveBundleUploadGenerator "/assets" ["0"; "1"] badJwk) st0)
    as [[ir g'] st'] eqn:E.
  destruct (Hnext ir g' st' eq_refl)
    as (_ & _ & [(signer & Hs & _)|(e & He & -> & -> & ->)]).
  - rewrite Hbad in Hs. discriminate.
  - rewrite Hbad in He. now injection He as <-.
Defined.

Lemma driver_terminates_witness :
  List.length ["0"; "1"; "2"] + 2 <= 5 /\
  snd (fst (drain 1000%N 5
              (makeArweaveBundleUploadGenerator "/assets" ["0"; "1"; "2"] theJwk)
              st0)) <> StillPending /\
  List.length
    (fst (fst (drain 1000%N 5
                 (makeArweaveBundleUploadGenerator "/assets" ["0"; "1"; "2"] theJwk)
                 st0))) <= 1 + 3.
Proof.
  assert (Hfuel : List.length ["0"; "1"; "2"] + 2 <= 5) by (simpl; lia).
  split; [exact Hfuel|].
  destruct (driver_terminates (C := collaborators) 1000%N) as (_ & _ & Hdrain).
  exact (Hdrain "/assets" ["0"; "1"; "2"] theJwk st0 5 Hfuel).
Defined.
End DemoRuns.

(** * Further properties of the code *)

(** ** The range selector: calls, errors, edge cases *)

Section RangeSelectorMore.
Context {C : Collaborators}.
Variable limitBytes : N.

(** Sizing one pair: the image is stat'ed first, and a failure there stops
    the inner [reduce] before the manifest is looked at. *)
Lemma filePairSizeOf_cases p st :
  filePairSizeOf p st =
    match stat (image p), stat (manifest p) with
    | None, _ =>
        (Err (StatError (image p)), logged st [EvStat (image p)])
    | Some a, None =>
        (Err (StatError (manifest p)),
         logged st [EvStat (image p); EvStat (manifest p)])
    | Some a, Some b =>
        (Ok (a + b)%N, logged st [EvStat (image p); EvStat (manifest p)])
    end.
Proof.
  unfold filePairSizeOf, statSize, logged. simpl.
  unfold bind, emit, liftOption, ret, throw. simpl.
  destruct (stat (image p)) as [a|]; simpl; [|reflexivity].
  destruct (stat (manifest p)) as [b|]; simpl;
    rewrite <- app_assoc; reflexivity.
Qed.

Lemma filePairSizeOf_inv_ok p st s st' :
  filePairSizeOf p st = (Ok s, st') ->
  pairBytes p = Some s /\
  st' = logged st [EvStat (image p); EvStat (manifest p)].
Proof.
  rewrite filePairSizeOf_cases. unfold pairBytes.
  destruct (stat (image p)) as [a|]; [|discriminate].
  destruct (stat (manifest p)) as [b|]; [|discriminate].
  intros H; injection H as <- <-. now split.
Qed.

Lemma logged_logged st evs1 evs2 :
  logged (logged st evs1) evs2 = logged st (evs1 ++ evs2).
Proof. unfold logged; simpl. now rewrite app_assoc. Qed.

Lemma getBundleRange_loop_read_only pairs :
  forall total rng st,
    exists evs,
      snd (getBundleRange_loop limitBytes pairs total rng st) = logged st evs /\
      Forall (fun ev => exists p, In p pairs /\
                          (ev = EvStat (image p) \/ ev = EvStat (manifest p)))
             evs.
Proof.
  induction pairs as [|p pairs IH]; intros total rng st; simpl.
  - exists []. unfold logged. rewrite app_nil_r. destruct st. now split.
  - assert (Hp : forall evs : list Event,
               (forall ev, In ev evs ->
                           ev = EvStat (image p) \/ ev = EvStat (manifest p)) ->
               Forall (fun ev => exists q, (p = q \/ In q pairs) /\
                                   (ev = EvStat (image q) \/
                                    ev = EvStat (manifest q))) evs).
    { intros evs H. apply Forall_forall. intros ev Hev. exists p.
      split; [now left|now apply H]. }
    unfold bind. rewrite filePairSizeOf_cases.
    destruct (stat (image p)) as [a|].
    + destruct (stat (manifest p)) as [b|].
      * destruct (limitBytes <=? total + (a + b))%N.
        -- exists [EvStat (image p); EvStat (manifest p)].
           split; [now destruct (Nat.eqb rng 0)|].
           apply Hp. simpl. intuition.
        -- destruct (IH (total + (a + b))%N (rng + 1)
                       (logged st [EvStat (image p); EvStat (manifest p)]))
             as (evs & -> & Hevs).
           exists ([EvStat (image p); EvStat (manifest p)] ++ evs).
           split; [apply logged_logged|].
           apply Forall_app. split; [apply Hp; simpl; intuition|].
           eapply Forall_impl; [|exact Hevs].
           intros ev (q & Hq & Hev). exists q. split; [now right|exact Hev].
      * exists [EvStat (image p); EvStat (manifest p)].
        split; [reflexivity|]. apply Hp. simpl. intuition.
    + exists [EvStat (image p)].
      split; [reflexivity|]. apply Hp. simpl. intuition.
Qed.

(** X1.  Whatever it answers, [getBundleRange] only looks: the pending list
    and the outside world are as before, and every call it made is a stat
    of the image or of the manifest of one of the pairs it was given. *)
Theorem getBundleRange_read_only pairs st :
  filePairs (snd (getBundleRange limitBytes pairs st)) = filePairs st /\
  world (snd (getBundleRange limitBytes pairs st)) = world st /\
  exists evs,
    trace (snd (getBundleRange limitBytes pairs st)) = trace st ++ evs /\
    Forall (fun ev => exists p, In p pairs /\
                        (ev = EvStat (image p) \/ ev = EvStat (manifest p)))
           evs.
Proof.
  unfold getBundleRange.
  destruct (getBundleRange_loop_read_only pairs 0%N 0 st) as (evs & -> & Hevs).
  repeat split. now exists evs.
Qed.

Lemma getBundleRange_loop_errors pairs :
  forall total rng st e,
    fst (getBundleRange_loop limitBytes pairs total rng st) = Err e ->
    (exists p, In p pairs /\
               ((stat (image p) = None /\ e = StatError (image p)) \/
                (stat (manifest p) = None /\ e = StatError (manifest p)))) \/
    (rng = 0 /\
     exists p0 s0, hd_error pairs = Some p0 /\ pairBytes p0 = Some s0 /\
                   (limitBytes <= total + s0)%N /\
                   e = OversizePair (key p0) s0 limitBytes).
Proof.
  induction pairs as [|p pairs IH]; intros total rng st e; simpl.
  - discriminate.
  - unfold bind. rewrite filePairSizeOf_cases. unfold pairBytes.
    destruct (stat (image p)) as [a|] eqn:Ea.
    + destruct (stat (manifest p)) as [b|] eqn:Eb.
      * destruct (N.leb_spec limitBytes (total + (a + b))) as [Hge|Hlt].
        -- destruct (Nat.eqb_spec rng 0) as [->|Hrng]; simpl; intros H.
           ++ injection H as <-. right. split; [reflexivity|].
              exists p, (a + b)%N. rewrite Ea, Eb. now repeat split.
           ++ discriminate.
        -- intros H. apply IH in H as [(q & Hq & Hs)|[Hrng _]]; [|lia].
           left. exists q. split; [now right|exact Hs].
      * simpl. intros H; injection H as <-. left. exists p.
        split; [now left|]. right. now split.
    + simpl. intros H; injection H as <-. left. exists p.
      split; [now left|]. left. now split.
Qed.

(** X2.  The only ways [getBundleRange] fails: a stat of the image or of
    the manifest of a pending pair was rejected, or the first pending pair,
    both of whose files could be stat'ed, alone reaches the limit. *)
Theorem getBundleRange_errors pairs st e :
  fst (getBundleRange limitBytes pairs st) = Err e ->
  (exists p, In p pairs /\
             ((stat (image p) = None /\ e = StatError (image p)) \/
              (stat (manifest p) = None /\ e = StatError (manifest p)))) \/
  (exists p0 s0, hd_error pairs = Some p0 /\ pairBytes p0 = Some s0 /\
                 (limitBytes <= s0)%N /\
                 e = OversizePair (key p0) s0 limitBytes).
Proof.
  intros H. apply getBundleRange_loop_errors in H as [H|[_ H]].
  - now left.
  - right. destruct H as (p0 & s0 & H1 & H2 & H3 & H4).
    exists p0, s0. now repeat split.
Qed.
Lemma selectRange_all_fit keys :
  forall sizes total rng,
    List.length keys = List.length sizes ->
    (total + sumN sizes < limitBytes)%N ->
    selectRange limitBytes keys sizes total rng =
      Ok (mkBundleRange (rng + List.length sizes) (total + sumN sizes)%N).
Proof.
  induction keys as [|k keys IH]; intros [|s sizes] total rng Hlen Hsum;
    try discriminate; simpl in *.
  - now rewrite Nat.add_0_r, N.add_0_r.
  - destruct (N.leb_spec limitBytes (total + s)) as [Hge|_]; [lia|].
    rewrite IH by lia. f_equal. f_equal; lia.
Qed.

(** X3.  When the combined sizes of all pending pairs add up to less than
    the limit, the range is the whole pending list and its size is that
    sum. *)
Theorem getBundleRange_all_fit pairs sizes st :
  SizesOf pairs sizes ->
  (sumN sizes < limitBytes)%N ->
  fst (getBundleRange limitBytes pairs st) =
    Ok (mkBundleRange (List.length pairs) (sumN sizes)).
Proof.
  intros Hsz Hsum. unfold getBundleRange.
  rewrite (getBundleRange_loop_selectRange _ _ _ Hsz).
  rewrite selectRange_all_fit.
  - simpl. now rewrite (Forall2_length Hsz).
  - apply SizesOf_length, Hsz.
  - exact Hsum.
Qed.

Lemma getBundleRange_loop_ignores_rest pairs more :
  forall total rng st r st',
    getBundleRange_loop limitBytes pairs total rng st = (Ok r, st') ->
    range r < rng + List.length pairs ->
    getBundleRange_loop limitBytes (pairs ++ more) total rng st = (Ok r, st').
Proof.
  induction pairs as [|p pairs IH]; intros total rng st r st' H Hlt.
  - simpl in H. apply ret_inv in H as [<- _]. simpl in Hlt. lia.
  - simpl in H |- *.
    apply bind_inv_ok in H as (s & st1 & Hs & H).
    rewrite (bind_ok _ _ _ _ _ Hs).
    destruct (limitBytes <=? total + s)%N; [exact H|].
    apply IH; [exact H|]. simpl in Hlt. lia.
Qed.

(** X4.  A range that stops before the end of the pending list does not
    depend on what follows: with any further pairs appended (missing files
    or not) the answer and the calls made are the same. *)
Theorem getBundleRange_ignores_rest pairs more st r st' :
  getBundleRange limitBytes pairs st = (Ok r, st') ->
  range r < List.length pairs ->
  getBundleRange limitBytes (pairs ++ more) st = (Ok r, st').
Proof.
  intros H Hlt. apply getBundleRange_loop_ignores_rest; [exact H|exact Hlt].
Qed.

Lemma firstn_S_cons {A} n (a : A) l : firstn (S n) (a :: l) = a :: firstn n l.
Proof. reflexivity. Qed.

Lemma getBundleRange_loop_calls pairs :
  forall total rng st r st',
    getBundleRange_loop limitBytes pairs total rng st = (Ok r, st') ->
    st' = logged st (statCalls (firstn (S (range r - rng)) pairs)).
Proof.
  induction pairs as [|p pairs IH]; intros total rng st r st' H.
  - simpl in H. apply ret_inv in H as [_ ->]. unfold logged; simpl.
    rewrite app_nil_r. now destruct st.
  - pose proof (getBundleRange_loop_range limitBytes _ _ _ _ _ _ H)
      as [[Hge _] _].
    simpl in H. apply bind_inv_ok in H as (s & st1 & Hs & H).
    apply filePairSizeOf_inv_ok in Hs as [_ ->].
    rewrite firstn_S_cons.
    destruct (limitBytes <=? total + s)%N.
    + destruct (Nat.eqb rng 0); [discriminate|].
      apply ret_inv in H as [<- ->]. simpl. now rewrite Nat.sub_diag.
    + pose proof (getBundleRange_loop_range limitBytes _ _ _ _ _ _ H)
        as [[Hge' _] _].
      apply IH in H. rewrite H, logged_logged.
      replace (range r - rng) with (S (range r - (rng + 1))) by lia.
      reflexivity.
Qed.

(** X5.  A range that is returned cost exactly these calls: the stat of
    the image and then of the manifest of each selected pair and of the
    first pair that did not fit, if there is one, in the order of the
    pending list; no later pair is looked at. *)
Theorem getBundleRange_calls pairs st r st' :
  getBundleRange limitBytes pairs st = (Ok r, st') ->
  trace st' = trace st ++ statCalls (firstn (S (range r)) pairs) /\
  range r <= List.length pairs.
Proof.
  intros H.
  pose proof (getBundleRange_loop_range limitBytes _ _ _ _ _ _ H)
    as [[_ Hle] _].
  apply getBundleRange_loop_calls in H. rewrite Nat.sub_0_r in H.
  subst st'. split; [reflexivity|exact Hle].
Qed.

(** The pairs of a returned range could all be sized, and unless the range
    is empty their sizes add up to less than the limit. *)
Lemma getBundleRange_loop_sizes pairs :
  forall total rng st r st',
    getBundleRange_loop limitBytes pairs total rng st = (Ok r, st') ->
    exists sizes,
      SizesOf (firstn (range r - rng) pairs) sizes /\
      size r = (total + sumN sizes)%N /\
      (rng < range r -> (size r < limitBytes)%N).
Proof.
  induction pairs as [|p pairs IH]; intros total rng st r st' H.
  - simpl in H. apply ret_inv in H as [<- _]. exists []. simpl.
    rewrite firstn_nil, N.add_0_r. repeat split; [constructor|lia].
  - pose proof (getBundleRange_loop_range limitBytes _ _ _ _ _ _ H)
      as [[Hge _] _].
    simpl in H. apply bind_inv_ok in H as (s & st1 & Hs & H).
    apply filePairSizeOf_inv_ok in Hs as [Hp _].
    destruct (N.leb_spec limitBytes (total + s)) as [_|Hfit].
    + destruct (Nat.eqb rng 0); [discriminate|].
      apply ret_inv in H as [<- _]. exists []. simpl.
      rewrite Nat.sub_diag, N.add_0_r. repeat split; [constructor|lia].
    + pose proof (getBundleRange_loop_range limitBytes _ _ _ _ _ _ H)
        as [[Hge' _] _].
      apply IH in H as (sizes & Hsz & Hsize & Hlt).
      exists (s :: sizes).
      replace (range r - rng) with (S (range r - (rng + 1))) by lia.
      rewrite firstn_S_cons. split; [now constructor|].
      split; [simpl; lia|].
      intros _. destruct (Nat.eq_dec (range r) (rng + 1)) as [E|E].
      * rewrite E, Nat.sub_diag in Hsz. simpl in Hsz.
        inversion Hsz; subst. simpl in Hsize. lia.
      * apply Hlt. lia.
Qed.

(** What [getBundleRange] answers does not depend on the state it starts
    in: it is a function of the pending pairs and of the filesystem. *)
Lemma getBundleRange_loop_state_free pairs :
  forall total rng st1 st2,
    fst (getBundleRange_loop limitBytes pairs total rng st1) =
    fst (getBundleRange_loop limitBytes pairs total rng st2).
Proof.
  induction pairs as [|p pairs IH]; intros total rng st1 st2; simpl.
  - reflexivity.
  - unfold bind. rewrite !filePairSizeOf_cases.
    destruct (stat (image p)) as [a|]; [|reflexivity].
    destruct (stat (manifest p)) as [b|]; [|reflexivity].
    destruct (limitBytes <=? total + (a + b))%N; [|apply IH].
    now destruct (Nat.eqb rng 0).
Qed.
End RangeSelectorMore.

(** ** Rewriting the manifest: failures and repeated updates *)

Section ManifestMore.
Context {C : Collaborators}.

Lemma assignProp_twice k v1 v2 ps :
  assignProp k v2 (assignProp k v1 ps) = assignProp k v2 ps.
Proof.
  induction ps as [|[k' v'] ps IH]; simpl.
  - now rewrite String.eqb_refl.
  - destruct (String.eqb k k') eqn:E; simpl.
    + now rewrite String.eqb_refl.
    + now rewrite E, IH.
Qed.

(** Two assignments to different names commute as soon as one of the names
    is already there (two new names would be appended in the order of the
    assignments). *)
Lemma assignProp_comm k1 k2 v w ps :
  k1 <> k2 ->
  lookupProp k2 ps <> None ->
  assignProp k1 v (assignProp k2 w ps) = assignProp k2 w (assignProp k1 v ps).
Proof.
  intros Hne. induction ps as [|[k v0] ps IH]; simpl; intros Hin.
  - congruence.
  - destruct (String.eqb_spec k2 k) as [<-|Hk2].
    + destruct (String.eqb_spec k1 k2) as [E|_]; [congruence|]. simpl.
      destruct (String.eqb_spec k1 k2) as [E|_]; [congruence|].
      now rewrite String.eqb_refl.
    + destruct (String.eqb_spec k1 k) as [<-|Hk1]; simpl.
      * rewrite String.eqb_refl.
        destruct (String.eqb_spec k2 k1) as [E|_]; [congruence|reflexivity].
      * destruct (String.eqb_spec k1 k) as [E|_]; [congruence|].
        destruct (String.eqb_spec k2 k) as [E|_]; [congruence|].
        now rewrite IH.
Qed.

Lemma setProp_twice o k v1 v2 o1 :
  setProp o k v1 = Ok o1 -> setProp o1 k v2 = setProp o k v2.
Proof.
  destruct o; simpl; intros H; try discriminate; injection H as <-; simpl;
    now rewrite assignProp_twice.
Qed.

Lemma setProp_comm o k1 k2 v w a :
  k1 <> k2 ->
  getProp o k2 <> None ->
  setProp o k2 w = Ok a ->
  exists c, setProp o k1 v = Ok c /\ setProp c k2 w = setProp a k1 v.
Proof.
  intros Hne Hin.
  destruct o; simpl in *; intros H; try discriminate; injection H as <-;
    eexists; (split; [reflexivity|]); simpl;
    now rewrite (assignProp_comm _ _ _ _ _ Hne Hin).
Qed.

Lemma setProp_accepts o k v :
  acceptsProps o = true -> exists o', setProp o k v = Ok o'.
Proof. destruct o; simpl; try discriminate; intros _; eexists; reflexivity. Qed.

Lemma setProp_ok_accepts o k v o' :
  setProp o k v = Ok o' -> acceptsProps o = true /\ acceptsProps o' = true.
Proof.
  destruct o; simpl; intros H; try discriminate; injection H as <-; now split.
Qed.

Lemma setProp_err o k v e :
  setProp o k v = Err e -> e = TypeError /\ acceptsProps o = false.
Proof.
  destruct o; simpl; intros H; try discriminate; injection H as <-; now split.
Qed.

(** X6.  Updating an updated manifest with another link gives what
    updating the original with that link gives: the later link replaces the
    earlier one in [image] and in [properties.files], and no field is
    duplicated or moved.  With the same link twice, the second update
    changes nothing. *)
Theorem updateManifest_last_link_wins doc link1 link2 mf1 :
  updateManifest doc link1 = Ok mf1 ->
  updateManifest mf1 link2 = updateManifest doc link2 /\
  updateManifest mf1 link1 = Ok mf1 /\
  exists mf2, updateManifest doc link2 = Ok mf2.
Proof.
  intros H.
  assert (Hgen : forall l, updateManifest mf1 l = updateManifest doc l /\
                           exists mf2, updateManifest doc l = Ok mf2).
  { intros l. revert H. unfold updateManifest, setNestedProp.
    destruct (setProp doc "image" (JStr link1)) as [d1|] eqn:E1;
      [|discriminate].
    destruct (getProp d1 "properties") as [inner|] eqn:Ep; [|discriminate].
    destruct (setProp inner "files" (filesListing link1)) as [p1|] eqn:E2;
      [|discriminate].
    intros E3.
    assert (HdP : getProp doc "properties" = Some inner).
    { rewrite <- Ep. symmetry.
      apply (setProp_get_other _ _ _ _ _ E1). discriminate. }
    (* the original document under the new link *)
    destruct (setProp_accepts doc "image" (JStr l)
                (proj1 (setProp_ok_accepts _ _ _ _ E1))) as [d2 E1'].
    destruct (setProp_accepts inner "files" (filesListing l)
                (proj1 (setProp_ok_accepts _ _ _ _ E2))) as [p2 E2'].
    assert (Hd2P : getProp d2 "properties" = Some inner).
    { rewrite <- HdP. apply (setProp_get_other _ _ _ _ _ E1'). discriminate. }
    rewrite E1', Hd2P, E2'.
    destruct (setProp_accepts d2 "properties" p2
                (proj2 (setProp_ok_accepts _ _ _ _ E1'))) as [mf2 E3'].
    split; [|exists mf2; exact E3'].
    (* the updated document under the new link *)
    destruct (setProp_comm d1 "image" "properties" (JStr l) p1 mf1)
      as (c & Hc & Hcomm); [discriminate|congruence|exact E3|].
    rewrite (setProp_twice _ _ _ (JStr l) _ E1), E1' in Hc.
    injection Hc as <-.
    destruct (setProp_accepts mf1 "image" (JStr l)
                (proj2 (setProp_ok_accepts _ _ _ _ E3))) as [e1 E4].
    rewrite E4. rewrite E4 in Hcomm.
    assert (He1P : getProp e1 "properties" = Some p1).
    { rewrite (setProp_get_other _ _ _ _ "properties" E4) by discriminate.
      apply (setProp_get_same _ _ _ _ E3). }
    rewrite He1P, (setProp_twice _ _ _ (filesListing l) _ E2), E2'.
    apply (setProp_twice _ _ _ p2 _ Hcomm). }
  split; [apply Hgen|]. split; [|apply Hgen].
  rewrite (proj1 (Hgen link1)). exact H.
Qed.

(** X7.  [getUpdatedManifest] returns a document exactly when the file can
    be read, its text parses, and the parsed value is an object (or array)
    whose [properties] is an object (or array).  Otherwise it fails: with
    the read error, with the parse error, or with a TypeError when the
    value or its [properties] cannot take the assignment. *)
Theorem getUpdatedManifest_outcomes manifestPath imageLink st :
  ((exists mf, fst (getUpdatedManifest manifestPath imageLink st) = Ok mf) <->
   (exists text doc props,
       readFile manifestPath = Some text /\
       JSON_parse text = Some doc /\
       acceptsProps doc = true /\
       getProp doc "properties" = Some props /\
       acceptsProps props = true)) /\
  (forall e,
      fst (getUpdatedManifest manifestPath imageLink st) = Err e ->
      (readFile manifestPath = None /\ e = ReadError manifestPath) \/
      (exists text,
          readFile manifestPath = Some text /\
          JSON_parse text = None /\ e = ParseError manifestPath) \/
      (exists text doc,
          readFile manifestPath = Some text /\
          JSON_parse text = Some doc /\ e = TypeError /\
          (acceptsProps doc = false \/
           getProp doc "properties" = None \/
           exists props, getProp doc "properties" = Some props /\
                         acceptsProps props = false))).
Proof.
  unfold getUpdatedManifest, bind, emit, liftOption, liftRes, ret, throw.
  simpl.
  destruct (readFile manifestPath) as [text|]; simpl.
  2:{ split.
      - split; [intros [mf H]; discriminate|].
        intros (t & d & p & H & _); discriminate.
      - intros e H; injection H as <-. now left. }
  destruct (JSON_parse text) as [doc|] eqn:Eparse; simpl.
  2:{ split.
      - split; [intros [mf H]; discriminate|].
        intros (t & d & p & Ht & H & _). injection Ht as <-. congruence.
      - intros e H; injection H as <-. right; left. now exists text. }
  unfold updateManifest, setNestedProp.
  destruct (setProp doc "image" (JStr imageLink)) as [d1|e1] eqn:E1.
  - pose proof (setProp_ok_accepts _ _ _ _ E1) as [Hdoc _].
    assert (HP : getProp d1 "properties" = getProp doc "properties")
      by (apply (setProp_get_other _ _ _ _ _ E1); discriminate).
    rewrite HP.
    destruct (getProp doc "properties") as [props|] eqn:Ep.
    + destruct (setProp props "files" (filesListing imageLink))
        as [p1|e2] eqn:E2.
      * pose proof (setProp_ok_accepts _ _ _ _ E2) as [Hprops _].
        destruct (setProp_accepts d1 "properties" p1
                    (proj2 (setProp_ok_accepts _ _ _ _ E1))) as [mf ->].
        split; [|discriminate].
        split; [intros _; now exists text, doc, props|now exists mf].
      * apply setProp_err in E2 as [-> Hprops].
        split.
        -- split; [intros [mf H]; discriminate|].
           intros (t & d & p & Ht & Hd & _ & Hp & Hacc).
           injection Ht as <-. assert (d = doc) by congruence. subst d.
           assert (p = props) by congruence. subst. congruence.
        -- intros e H; injection H as <-. right; right.
           exists text, doc. split; [reflexivity|]. split; [exact Eparse|].
           split; [reflexivity|]. right; right. now exists props.
    + split.
      * split; [intros [mf H]; discriminate|].
        intros (t & d & p & Ht & Hd & _ & Hp & _).
        injection Ht as <-. congruence.
      * intros e H; injection H as <-. right; right.
        exists text, doc. split; [reflexivity|]. split; [exact Eparse|].
        split; [reflexivity|]. right; now left.
  - apply setProp_err in E1 as [-> Hdoc].
    split.
    + split; [intros [mf H]; discriminate|].
      intros (t & d & p & Ht & Hd & Hacc & _).
      injection Ht as <-. congruence.
    + intros e H; injection H as <-. right; right.
      exists text, doc. split; [reflexivity|]. split; [exact Eparse|].
      split; [reflexivity|]. now left.
Qed.
End ManifestMore.

(** ** The bundle: what it hands over, and when it posts *)

Section BundleMore.
Context {C : Collaborators}.
Variable signer : ArweaveSigner.

Lemma postsIn_app evs1 evs2 :
  postsIn (evs1 ++ evs2) = postsIn evs1 + postsIn evs2.
Proof. unfold postsIn. now rewrite filter_app, length_app. Qed.

Lemma postsIn_transform_calls evs :
  Forall isTransformCall evs -> postsIn evs = 0.
Proof.
  induction 1 as [|ev evs Hev _ IH]; [reflexivity|].
  unfold postsIn in *. simpl. destruct ev; simpl in *; tauto.
Qed.

Lemma callsOf_transform_calls outs :
  Forall isTransformCall (flat_map (callsOf signer) outs).
Proof.
  induction outs as [|o outs IH]; simpl; [constructor|].
  repeat (constructor; [exact I|]). exact IH.
Qed.


Lemma emits_ret {A} P (a : A) : Emits P (ret a).
Proof. intros st. exists []. simpl. now rewrite app_nil_r. Qed.

Lemma emits_liftOption {A} P (o : option A) e : Emits P (liftOption o e).
Proof. intros st. exists []. destruct o; simpl; now rewrite app_nil_r. Qed.

Lemma emits_liftRes {A} P (r : Res A) : Emits P (liftRes r).
Proof. intros st. exists []. simpl. now rewrite app_nil_r. Qed.

Lemma emits_liftWorld {A} P (f : World -> option (A * World)) e :
  Emits P (liftWorld f e).
Proof.
  intros st. exists []. unfold liftWorld.
  destruct (f (world st)) as [[a w]|]; simpl; now rewrite app_nil_r.
Qed.

Lemma emits_emit (P : Event -> Prop) ev : P ev -> Emits P (emit ev).
Proof. intros H st. exists [ev]. simpl. split; [reflexivity|now constructor]. Qed.

Lemma emits_bind {A B} P (m : M A) (k : A -> M B) :
  Emits P m -> (forall a, Emits P (k a)) -> Emits P (bind m k).
Proof.
  intros Hm Hk st. unfold bind. destruct (Hm st) as (evs1 & H1 & HP1).
  destruct (m st) as [[a|e] st1]; simpl in H1.
  - destruct (Hk a st1) as (evs2 & H2 & HP2).
    exists (evs1 ++ evs2). rewrite H2, H1, app_assoc.
    split; [reflexivity|]. apply Forall_app. now split.
  - exists evs1. now split.
Qed.

Lemma emits_processBundleFilePair accP p :
  Emits isTransformCall accP ->
  Emits isTransformCall (processBundleFilePair signer accP p).
Proof.
  intros Hacc.
  unfold processBundleFilePair, getImageDataItem, signDataItem,
    getUpdatedManifest.
  apply emits_bind; [exact Hacc|]. intros acc.
  repeat (apply emits_bind; [|intros ?]);
    first [ apply emits_emit; exact I
          | apply emits_liftOption | apply emits_liftWorld
          | apply emits_liftRes | apply emits_ret ].
Qed.

(** Whatever becomes of the [reduce], it only reads files and signs. *)
Lemma emits_reduce pairs :
  forall accP,
    Emits isTransformCall accP ->
    Emits isTransformCall (fold_left (processBundleFilePair signer) pairs accP).
Proof.
  induction pairs as [|p pairs IH]; intros accP Hacc; simpl.
  - exact Hacc.
  - apply IH. now apply emits_processBundleFilePair.
Qed.



(** X9.  Whatever becomes of a bundle, it posts at most once, and a post is
    the last call it makes: by then every pair of the range has been read,
    transformed and signed, and the bundle and its transaction have been
    built and signed.  A bundle that fails earlier posts nothing. *)
Theorem processBundle_posts_last jwk r st res st' :
  processBundle signer jwk r st = (res, st') ->
  exists evs,
    trace st' = trace st ++ evs /\
    postsIn evs <= 1 /\
    (postsIn evs = 1 ->
     exists outs w,
       map po_pair outs = firstn (range r) (filePairs st) /\
       TransformedAll signer (world st) outs w /\
       evs = flat_map (callsOf signer) outs ++
             [EvBundle (recordsOf outs); EvToTransaction;
              EvSignTransaction; EvPost]).
Proof.
  unfold processBundle. unfold bind at 1. unfold splice0 at 1.
  set (st1 := mkSt (skipn (range r) (filePairs st)) (world st) (trace st)).
  unfold bind at 1.
  destruct (emits_reduce (firstn (range r) (filePairs st))
              (ret emptyProcessed) (emits_ret _ _) st1) as (evs0 & Htr0 & Hev0).
  destruct (fold_left (processBundleFilePair signer)
              (firstn (range r) (filePairs st)) (ret emptyProcessed) st1)
    as [[acc|e] st2] eqn:Ered.
  2:{ intros H; injection H as _ <-. exists evs0.
      rewrite (postsIn_transform_calls _ Hev0).
      split; [exact Htr0|]. split; [lia|discriminate]. }
  apply reduce_inv in Ered
    as (acc0 & st1' & outs & Hret & Hmap & Hall & -> & _ & Htr).
  apply ret_inv in Hret as [<- ->]. simpl in Hmap, Hall, Htr. clear Htr0 Hev0.
  pose proof (postsIn_transform_calls _ (callsOf_transform_calls outs)) as Hp0.
  unfold bind, emit, liftWorld. simpl.
  assert (Hno : forall tail,
             postsIn tail = 0 ->
             postsIn (flat_map (callsOf signer) outs ++ tail) <= 1 /\
             (postsIn (flat_map (callsOf signer) outs ++ tail) = 1 ->
              exists outs' w,
                map po_pair outs' = firstn (range r) (filePairs st) /\
                TransformedAll signer (world st) outs' w /\
                flat_map (callsOf signer) outs ++ tail =
                  flat_map (callsOf signer) outs' ++
                  [EvBundle (recordsOf outs'); EvToTransaction;
                   EvSignTransaction; EvPost])).
  { intros tail Ht. rewrite postsIn_app, Hp0, Ht. split; [lia|discriminate]. }
  assert (Hyes :
            postsIn (flat_map (callsOf signer) outs ++
                     [EvBundle (recordsOf outs); EvToTransaction;
                      EvSignTransaction; EvPost]) <= 1 /\
            (postsIn (flat_map (callsOf signer) outs ++
                      [EvBundle (recordsOf outs); EvToTransaction;
                       EvSignTransaction; EvPost]) = 1 ->
             exists outs' w,
               map po_pair outs' = firstn (range r) (filePairs st) /\
               TransformedAll signer (world st) outs' w /\
               flat_map (callsOf signer) outs ++
                 [EvBundle (recordsOf outs); EvToTransaction;
                  EvSignTransaction; EvPost] =
               flat_map (callsOf signer) outs' ++
                 [EvBundle (recordsOf outs'); EvToTransaction;
                  EvSignTransaction; EvPost])).
  { rewrite postsIn_app, Hp0. split; [unfold postsIn; simpl; lia|].
    intros _. now exists outs, (world st2). }
  destruct (bundleAndSignData _ signer (world st2)) as [[bundle w4]|]; simpl.
  2:{ intros H; injection H as _ <-. simpl. rewrite Htr.
      eexists. rewrite <- app_assoc. split; [reflexivity|].
      now apply Hno. }
  destruct (toTransaction bundle jwk w4) as [[tx w6]|]; simpl.
  2:{ intros H; injection H as _ <-. simpl. rewrite Htr.
      eexists. rewrite <- !app_assoc. split; [reflexivity|].
      now apply Hno. }
  destruct (transactions_sign tx jwk w6) as [[tx' w8]|]; simpl.
  2:{ intros H; injection H as _ <-. simpl. rewrite Htr.
      eexists. rewrite <- !app_assoc. split; [reflexivity|].
      now apply Hno. }
  destruct (transactions_post tx' w8) as [w10|]; simpl;
    intros H; injection H as _ <-; simpl; rewrite Htr;
    eexists; rewrite <- !app_assoc; (split; [reflexivity|]); exact Hyes.
Qed.
End BundleMore.

(** ** The driver: sizes of the bundles, coverage, failures, posts *)

Section DriverMore.
Context {C : Collaborators}.
Variable limitBytes : N.

(** X12.  Every bundle the loop of the driver gets through holds at least
    one pair, and the files of its pairs, which were all stat'ed, add up to
    strictly less than the byte limit; its pairs are the first of the
    pending list, which is left without them. *)
Theorem bundle_below_limit signer jwk st res st' :
  filePairs st <> [] ->
  bundlePromise limitBytes signer jwk st = (Ok res, st') ->
  exists outs sizes,
    Aligned outs res /\
    map po_pair outs = firstn (List.length outs) (filePairs st) /\
    SizesOf (map po_pair outs) sizes /\
    (sumN sizes < limitBytes)%N /\
    1 <= List.length outs <= List.length (filePairs st) /\
    filePairs st' = skipn (List.length outs) (filePairs st).
Proof.
  intros Hne H.
  destruct (bundlePromise_inv limitBytes signer jwk st res st' H)
    as (r & outs & Hr & Hmap & _ & Hal & Hfp).
  destruct (getBundleRange limitBytes (filePairs st) st) as [rr st1] eqn:Er.
  simpl in Hr. subst rr.
  pose proof (getBundleRange_loop_range limitBytes _ _ _ _ _ _ Er)
    as [[_ Hle] Hge].
  specialize (Hge Hne). simpl in Hle.
  destruct (getBundleRange_loop_sizes limitBytes _ _ _ _ _ _ Er)
    as (sizes & Hsz & Hsize & Hlt).
  rewrite Nat.sub_0_r in Hsz. simpl in Hsize.
  assert (Hlen : List.length outs = range r).
  { apply (f_equal (@List.length _)) in Hmap.
    rewrite length_map, length_firstn in Hmap. lia. }
  exists outs, sizes. rewrite Hlen, Hmap.
  split; [exact Hal|]. split; [reflexivity|]. split; [exact Hsz|].
  split; [rewrite <- Hsize; apply Hlt; lia|]. split; [lia|exact Hfp].
Qed.

Lemma drain_loop_exhausted signer jwk fuel :
  forall st rs st',
    drain limitBytes fuel (SuspendedYield signer jwk) st
      = (rs, Exhausted, st') ->
    filePairs st' = [] /\
    List.concat (map cacheKeys rs) = map key (filePairs st).
Proof.
  induction fuel as [|fuel IH]; intros st rs st' H; [discriminate|].
  destruct (filePairs st) as [|p ps] eqn:Efp.
  - simpl in H. rewrite Efp in H. injection H as <- <-. now split.
  - cbn [drain] in H. rewrite (next_loop limitBytes signer jwk st p ps Efp) in H.
    destruct (bundlePromise limitBytes signer jwk st) as [[res|e] st2] eqn:Ep;
      [|discriminate].
    destruct (drain limitBytes fuel (SuspendedYield signer jwk) st2)
      as [[rs' out'] st3] eqn:Ed.
    injection H as <- -> <-.
    apply IH in Ed as [Hempty Hkeys].
    apply bundlePromise_inv in Ep
      as (r & outs & _ & Hmap & _ & (Hk & _) & Hfp).
    split; [exact Hempty|].
    simpl. rewrite Hkeys, Hk, Hfp. unfold keysOf.
    rewrite <- (map_map po_pair key), Hmap, <- map_app, Efp.
    now rewrite firstn_skipn.
Qed.

Lemma sameLengths_concat rs :
  Forall sameLengths rs ->
  List.length (List.concat (map manifestLinks rs)) =
    List.length (List.concat (map cacheKeys rs)) /\
  List.length (List.concat (map updatedManifests rs)) =
    List.length (List.concat (map cacheKeys rs)).
Proof.
  induction 1 as [|r rs [H1 H2] _ [IH1 IH2]]; [now split|].
  simpl. rewrite !length_app, IH1, IH2. split; lia.
Qed.

(** X13.  A run of the driver that ends exhausted has covered every asset:
    the cache keys of its results, put end to end, are exactly the assets,
    in their order, there is one link and one updated manifest per asset,
    and nothing is left pending. *)
Theorem exhausted_run_covers_assets dirname assets jwk fuel st rs st' :
  drain limitBytes fuel (makeArweaveBundleUploadGenerator dirname assets jwk) st
    = (rs, Exhausted, st') ->
  List.concat (map cacheKeys rs) = assets /\
  List.length (List.concat (map manifestLinks rs)) = List.length assets /\
  List.length (List.concat (map updatedManifests rs)) = List.length assets /\
  filePairs st' = [].
Proof.
  intros H.
  assert (Hlens : Forall sameLengths rs).
  { destruct fuel as [|fuel]; [discriminate|].
    destruct (newArweaveSigner jwk) as [signer|e] eqn:Es;
      [|rewrite (drain_start_thrown _ _ _ _ _ _ _ Es) in H; discriminate].
    rewrite (drain_start _ _ _ _ _ _ _ Es) in H.
    match type of H with
    | context [drain limitBytes fuel ?g ?s] =>
        destruct (drain limitBytes fuel g s) as [[rs' out'] st3] eqn:Ed
    end.
    injection H as <- _ _.
    apply drain_loop_inv in Ed as (segs & rest & Hal & _).
    constructor; [now split|exact (Aligned_all_sameLengths _ _ Hal)]. }
  assert (Hkeys : List.concat (map cacheKeys rs) = assets /\ filePairs st' = []).
  { destruct fuel as [|fuel]; [discriminate|].
    destruct (newArweaveSigner jwk) as [signer|e] eqn:Es;
      [|rewrite (drain_start_thrown _ _ _ _ _ _ _ Es) in H; discriminate].
    rewrite (drain_start _ _ _ _ _ _ _ Es) in H.
    match type of H with
    | context [drain limitBytes fuel ?g ?s] =>
        destruct (drain limitBytes fuel g s) as [[rs' out'] st3] eqn:Ed
    end.
    injection H as <- -> <-.
    apply drain_loop_exhausted in Ed as [Hempty Hk]. simpl in Hk.
    split; [|exact Hempty]. simpl. rewrite Hk. apply keys_toFilePair. }
  destruct Hkeys as [Hkeys Hempty].
  destruct (sameLengths_concat rs Hlens) as [Hl Hm].
  rewrite Hl, Hm, Hkeys. now repeat split.
Qed.

(** X14.  When the range computation fails (an oversize first pair, a file
    that cannot be stat'ed), the promise of the loop is rejected with that
    error and nothing is taken off the pending list, nor is the outside
    world touched.  The generator is not through: a consumer that pulls
    again gets the same error again. *)
Theorem range_failure_consumes_nothing signer jwk st e st1 :
  filePairs st <> [] ->
  getBundleRange limitBytes (filePairs st) st = (Err e, st1) ->
  bundlePromise limitBytes signer jwk st = (Err e, st1) /\
  filePairs st1 = filePairs st /\
  world st1 = world st /\
  forall fuel,
    fst (drain limitBytes (S fuel) (SuspendedYield signer jwk) st1)
      = ([], Failed e).
Proof.
  intros Hne Hr.
  assert (Hfp : filePairs st1 = filePairs st /\ world st1 = world st).
  { destruct (getBundleRange_loop_read_only limitBytes (filePairs st) 0%N 0 st)
      as (evs & Hsnd & _).
    unfold getBundleRange in Hr. rewrite Hr in Hsnd. simpl in Hsnd.
    subst st1. now split. }
  destruct Hfp as [Hfp Hw].
  split; [unfold bundlePromise; now rewrite (bind_err _ _ _ _ _ Hr)|].
  split; [exact Hfp|]. split; [exact Hw|].
  intros fuel.
  destruct (filePairs st1) as [|p ps] eqn:Efp; [congruence|].
  cbn [drain]. rewrite (next_loop limitBytes signer jwk st1 p ps Efp).
  assert (Hagain : fst (getBundleRange limitBytes (filePairs st1) st1) = Err e).
  { rewrite Efp, Hfp. unfold getBundleRange.
    rewrite (getBundleRange_loop_state_free limitBytes _ _ _ st1 st).
    fold (getBundleRange limitBytes (filePairs st) st). now rewrite Hr. }
  unfold bundlePromise, bind.
  destruct (getBundleRange limitBytes (filePairs st1) st1) as [[r|e'] st2].
  - discriminate.
  - simpl in Hagain. injection Hagain as ->. reflexivity.
Qed.



End DriverMore.

(** ** The bundle: its errors, and what its result points to *)

Section BundleErrors.
Context {C : Collaborators}.
Variable signer : ArweaveSigner.

Lemma raises_ret {A} P (a : A) : Raises P (ret a).
Proof. intros st e st' H. discriminate. Qed.

Lemma raises_emit P ev : Raises P (emit ev).
Proof. intros st e st' H. discriminate. Qed.

Lemma raises_liftOption {A} (P : Error -> Prop) (o : option A) e0 :
  P e0 -> Raises P (liftOption o e0).
Proof.
  intros HP st e st' H. destruct o; simpl in H; [discriminate|].
  unfold throw in H. now injection H as <- _.
Qed.

Lemma raises_liftWorld {A} (P : Error -> Prop)
    (f : World -> option (A * World)) e0 :
  P e0 -> Raises P (liftWorld f e0).
Proof.
  intros HP st e st' H. unfold liftWorld in H.
  destruct (f (world st)) as [[a w]|]; [discriminate|].
  now injection H as <- _.
Qed.

Lemma raises_bind {A B} P (m : M A) (k : A -> M B) :
  Raises P m -> (forall a, Raises P (k a)) -> Raises P (bind m k).
Proof.
  intros Hm Hk st e st' H. unfold bind in H.
  destruct (m st) as [[a|e1] st1] eqn:E.
  - exact (Hk a st1 e st' H).
  - injection H as <- _. exact (Hm st e1 st1 E).
Qed.

Lemma updateManifest_err doc imageLink e :
  updateManifest doc imageLink = Err e -> e = TypeError.
Proof.
  unfold updateManifest, setNestedProp.
  destruct (setProp doc "image" (JStr imageLink)) as [d1|e1] eqn:E1.
  - destruct (getProp d1 "properties") as [inner|]; [|congruence].
    destruct (setProp inner "files" (filesListing imageLink)) as [p1|e2] eqn:E2.
    + intros H. now apply setProp_err in H.
    + intros H; injection H as <-. now apply setProp_err in E2.
  - intros H; injection H as <-. now apply setProp_err in E1.
Qed.

Lemma raises_processBundleFilePair all accP p :
  In p all ->
  Raises (isTransformError all) accP ->
  Raises (isTransformError all) (processBundleFilePair signer accP p).
Proof.
  intros Hin Hacc.
  assert (Hp : forall e, e = ReadError (image p) \/ e = ReadError (manifest p) \/
                         e = ParseError (manifest p) ->
                         isTransformError all e).
  { intros e He. right; right. now exists p. }
  unfold processBundleFilePair, getImageDataItem, signDataItem,
    getUpdatedManifest.
  apply raises_bind; [exact Hacc|]. intros acc.
  repeat (apply raises_bind; [|intros ?]);
    try apply raises_emit; try apply raises_ret.
  - apply raises_liftOption, Hp. now left.
  - apply raises_liftWorld. right; now left.
  - apply raises_liftOption, Hp. right; now left.
  - apply raises_liftOption, Hp. right; now right.
  - intros st e st' H. unfold liftRes in H. injection H as H _.
    apply updateManifest_err in H. now left.
  - apply raises_liftWorld. right; now left.
Qed.

Lemma raises_reduce all pairs :
  forall accP,
    (forall p, In p pairs -> In p all) ->
    Raises (isTransformError all) accP ->
    Raises (isTransformError all)
           (fold_left (processBundleFilePair signer) pairs accP).
Proof.
  induction pairs as [|p pairs IH]; intros accP Hall Hacc; simpl.
  - exact Hacc.
  - apply IH; [intros q Hq; apply Hall; now right|].
    apply raises_processBundleFilePair; [apply Hall; now left|exact Hacc].
Qed.

(** X10.  A bundle fails only in these ways: while transforming a pair of
    its range (a file of that pair cannot be read, its manifest does not
    parse or cannot take the assignments, a record cannot be signed), while
    bundling, or while posting.  It never fails with an oversize or a stat
    error, and never names a file of a pair outside its range. *)
Theorem processBundle_errors jwk r st e st' :
  processBundle signer jwk r st = (Err e, st') ->
  isTransformError (firstn (range r) (filePairs st)) e \/
  e = BundlingError \/ e = SubmissionError.
Proof.
  unfold processBundle. unfold bind at 1. unfold splice0 at 1.
  set (st1 := mkSt (skipn (range r) (filePairs st)) (world st) (trace st)).
  set (P := fun e =>
              isTransformError (firstn (range r) (filePairs st)) e \/
              e = BundlingError \/ e = SubmissionError).
  intros H. change (P e). revert H. generalize st1. clear st1.
  intros st1 H. revert st1 e st' H.
  change (Raises P
            (bind (fold_left (processBundleFilePair signer)
                     (firstn (range r) (filePairs st)) (ret emptyProcessed))
                  (fun acc =>
                     emit (EvBundle (acc_dataItems acc)) ;;;
                     bundle <- liftWorld
                                 (bundleAndSignData (acc_dataItems acc) signer)
                                 BundlingError ;;
                     emit EvToTransaction ;;;
                     tx <- liftWorld (toTransaction bundle jwk) BundlingError ;;
                     emit EvSignTransaction ;;;
                     tx0 <- liftWorld (transactions_sign tx jwk) SigningError ;;
                     emit EvPost ;;;
                     liftWorld
                       (fun w => option_map (fun w' => (tt, w'))
                                   (transactions_post tx0 w))
                       SubmissionError ;;;
                     ret (mkResult (acc_cacheKeys acc) (acc_manifestLinks acc)
                            (acc_updatedManifests acc))))).
  apply raises_bind.
  - intros st1 e st' H. left.
    revert H. apply raises_reduce; [auto|apply raises_ret].
  - intros acc.
    repeat (apply raises_bind; [|intros ?]);
      try apply raises_emit; try apply raises_ret;
      apply raises_liftWorld; unfold P, isTransformError; tauto.
Qed.


End BundleErrors.

(** * The further properties at work in the small world *)

Section DemoRunsMore.
Import Demo.

Lemma getBundleRange_errors_witness :
  fst (getBundleRange 1000%N [pair "0"; pair "9"] st0) =
    Err (StatError "/assets/9.png") /\
  exists p, In p [pair "0"; pair "9"] /\
            (stat (image p) = None \/ stat (manifest p) = None).
Proof.
  assert (H : fst (getBundleRange 1000%N [pair "0"; pair "9"] st0) =
              Err (StatError "/assets/9.png")) by reflexivity.
  split; [exact H|].
  destruct (getBundleRange_errors 1000%N _ _ _ H)
    as [(p & Hin & [[Hs _]|[Hs _]])|(p0 & s0 & _ & _ & _ & He)].
  - exists p. split; [exact Hin|now left].
  - exists p. split; [exact Hin|now right].
  - discriminate.
Defined.

Lemma getBundleRange_all_fit_witness :
  SizesOf [pair "0"; pair "1"] [400; 400]%N /\
  (sumN [400; 400] < 1000)%N /\
  fst (getBundleRange 1000%N [pair "0"; pair "1"] st0) =
    Ok (mkBundleRange 2 800).
Proof.
  assert (Hs : SizesOf [pair "0"; pair "1"] [400; 400]%N)
    by (repeat constructor).
  assert (Hl : (sumN [400; 400] < 1000)%N) by reflexivity.
  split; [exact Hs|]. split; [exact Hl|].
  exact (getBundleRange_all_fit 1000%N _ _ st0 Hs Hl).
Defined.

Lemma getBundleRange_ignores_rest_witness :
  exists r st',
    getBundleRange 1000%N pairs3 st0 = (Ok r, st') /\
    range r < List.length pairs3 /\
    getBundleRange 1000%N (pairs3 ++ [pair "9"]) st0 = (Ok r, st').
Proof.
  destruct (getBundleRange 1000%N pairs3 st0) as [[r|e] st'] eqn:E;
    [|vm_compute in E; discriminate].
  assert (Hlt : range r < List.length pairs3).
  { vm_compute in E. injection E as <- _. simpl. lia. }
  exists r, st'. split; [reflexivity|]. split; [exact Hlt|].
  exact (getBundleRange_ignores_rest 1000%N pairs3 [pair "9"] st0 r st' E Hlt).
Defined.

Lemma getBundleRange_calls_witness :
  exists r st',
    getBundleRange 1000%N pairs3 st0 = (Ok r, st') /\
    trace st' =
      [EvStat "/assets/0.png"; EvStat "/assets/0.json";
       EvStat "/assets/1.png"; EvStat "/assets/1.json";
       EvStat "/assets/2.png"; EvStat "/assets/2.json"].
Proof.
  destruct (getBundleRange 1000%N pairs3 st0) as [[r|e] st'] eqn:E;
    [|vm_compute in E; discriminate].
  destruct (getBundleRange_calls 1000%N pairs3 st0 r st' E) as [Htr _].
  exists r, st'. split; [reflexivity|].
  rewrite Htr. vm_compute in E. injection E as <- _. reflexivity.
Defined.

Lemma updateManifest_last_link_wins_witness :
  exists mf1,
    updateManifest doc1 "https://arweave.net/tx0" = Ok mf1 /\
    updateManifest mf1 "https://arweave.net/tx5" =
      updateManifest doc1 "https://arweave.net/tx5" /\
    updateManifest mf1 "https://arweave.net/tx0" = Ok mf1.
Proof.
  destruct (updateManifest doc1 "https://arweave.net/tx0") as [mf1|e] eqn:E;
    [|vm_compute in E; discriminate].
  destruct (updateManifest_last_link_wins doc1 "https://arweave.net/tx0"
              "https://arweave.net/tx5" mf1 E) as (H1 & H2 & _).
  exists mf1. split; [reflexivity|]. now split.
Defined.

Lemma getUpdatedManifest_outcomes_witness :
  (exists mf,
      fst (getUpdatedManifest "/assets/0.json" "https://arweave.net/tx0" st0)
        = Ok mf) /\
  fst (getUpdatedManifest "/assets/3.json" "https://arweave.net/tx0" st0)
    = Err (ParseError "/assets/3.json") /\
  JSON_parse "not json" = None.
Proof.
  split; [|split; [reflexivity|reflexivity]].
  apply (proj1 (getUpdatedManifest_outcomes "/assets/0.json"
                  "https://arweave.net/tx0" st0)).
  exists "json-text-0", doc0.
  eexists. repeat split; reflexivity.
Defined.


Lemma processBundle_posts_last_witness :
  exists evs,
    trace (snd (processBundle theSigner theJwk (mkBundleRange 2 708)
                  (stWith pairsBad))) = evs /\
    postsIn evs = 0 /\
    fst (processBundle theSigner theJwk (mkBundleRange 2 708) (stWith pairsBad))
      = Err (ParseError "/assets/3.json").
Proof.
  destruct (processBundle_posts_last theSigner theJwk (mkBundleRange 2 708)
              (stWith pairsBad) _ _ eq_refl) as (evs & Htr & _ & _).
  exists evs. simpl in Htr. split; [exact Htr|].
  split; [|reflexivity].
  rewrite <- Htr. reflexivity.
Defined.

Lemma bundle_below_limit_witness :
  exists res st' sizes,
    bundlePromise 1000%N theSigner theJwk (stWith pairs3) = (Ok res, st') /\
    cacheKeys res = ["0"; "1"] /\
    SizesOf [pair "0"; pair "1"] sizes /\
    (sumN sizes < 1000)%N /\
    filePairs st' = [pair "2"].
Proof.
  destruct (bundlePromise 1000%N theSigner theJwk (stWith pairs3))
    as [[res|e] st'] eqn:E; [|vm_compute in E; discriminate].
  assert (Hne : filePairs (stWith pairs3) <> []) by discriminate.
  destruct (bundle_below_limit 1000%N theSigner theJwk (stWith pairs3) res st'
              Hne E)
    as (outs & sizes & (Hk & _) & Hmap & Hsz & Hlt & _ & Hfp).
  assert (Hkeys : cacheKeys res = ["0"; "1"]).
  { vm_compute in E. injection E as <- _. reflexivity. }
  assert (Hlen : List.length outs = 2).
  { rewrite Hkeys in Hk. apply (f_equal (@List.length _)) in Hk.
    unfold keysOf in Hk. rewrite length_map in Hk. simpl in Hk. lia. }
  rewrite Hlen in Hmap, Hfp. rewrite Hmap in Hsz.
  exists res, st', sizes.
  split; [reflexivity|]. split; [exact Hkeys|]. split; [exact Hsz|].
  split; [exact Hlt|exact Hfp].
Defined.

Lemma exhausted_run_covers_assets_witness :
  exists rs st',
    drain 500%N 4 (makeArweaveBundleUploadGenerator "/assets" ["0"; "1"] theJwk)
      st0 = (rs, Exhausted, st') /\
    List.concat (map cacheKeys rs) = ["0"; "1"] /\
    List.length (List.concat (map manifestLinks rs)) = 2 /\
    filePairs st' = [].
Proof.
  destruct (drain 500%N 4
              (makeArweaveBundleUploadGenerator "/assets" ["0"; "1"] theJwk)
              st0) as [[rs out] st'] eqn:E.
  assert (Hout : out = Exhausted).
  { vm_compute in E. now injection E as _ <- _. }
  subst out.
  destruct (exhausted_run_covers_assets 500%N "/assets" ["0"; "1"] theJwk 4
              st0 rs st' E) as (Hk & Hl & _ & Hp).
  exists rs, st'. now repeat split.
Defined.

Lemma range_failure_consumes_nothing_witness :
  exists st1,
    getBundleRange 1000%N [pair "big"; pair "0"] (stWith [pair "big"; pair "0"])
      = (Err (OversizePair "big" 1200 1000), st1) /\
    filePairs st1 = [pair "big"; pair "0"] /\
    fst (drain 1000%N 3 (SuspendedYield theSigner theJwk) st1)
      = ([], Failed (OversizePair "big" 1200 1000)).
Proof.
  destruct (getBundleRange 1000%N [pair "big"; pair "0"]
              (stWith [pair "big"; pair "0"])) as [[r|e] st1] eqn:E.
  - vm_compute in E. discriminate.
  - assert (He : e = OversizePair "big" 1200 1000).
    { vm_compute in E. now injection E as <- _. }
    subst e.
    assert (Hne : filePairs (stWith [pair "big"; pair "0"]) <> [])
      by discriminate.
    destruct (range_failure_consumes_nothing 1000%N theSigner theJwk
                (stWith [pair "big"; pair "0"]) _ st1 Hne E)
      as (_ & Hfp & _ & Hagain).
    exists st1. split; [reflexivity|]. split; [exact Hfp|apply Hagain].
Defined.

Lemma processBundle_errors_witness :
  exists st',
    processBundle theSigner theJwk (mkBundleRange 2 708) (stWith pairsBad)
      = (Err (ParseError "/assets/3.json"), st') /\
    isTransformError [pair "0"; pair "3"] (ParseError "/assets/3.json").
Proof.
  destruct (processBundle theSigner theJwk (mkBundleRange 2 708)
              (stWith pairsBad)) as [[res|e] st'] eqn:E.
  - vm_compute in E. discriminate.
  - assert (He : e = ParseError "/assets/3.json").
    { vm_compute in E. now injection E as <- _. }
    subst e. exists st'. split; [reflexivity|].
    destruct (processBundle_errors theSigner theJwk (mkBundleRange 2 708)
                (stWith pairsBad) _ st' E) as [H|[H|H]];
      [exact H|discriminate|discriminate].
Defined.

End DemoRunsMore.
